(** * Ear-clipping triangulation: a shallow embedding of
      [geom.hpp] and [triangulation.cpp].

    Conventions of the embedding.

    - [geom.hpp] is embedded twice.  [geom64] is the code as it runs:
      [double] is IEEE 754 binary64 (Rocq's primitive floats), and every
      subtraction, multiplication and comparison with zero is rounded on
      its own, to nearest-even, with underflow, overflow, infinities and
      NaN as the format has them; a product and a difference are not
      contracted into a fused multiply-add.  [geom] is the same text over
      exact rationals ([Q]): every finite [double] is a rational, and the
      arithmetic is carried out without rounding.  The polygon class is
      embedded over [geom]; its general results use three facts of the
      geometry (a triangle contains its own corners, a triangle
      [(A, B, B)] tests neither convex nor reflex, and no triangle tests
      both), each of which is also proved of [geom64].
    - [std::size_t] indices are modelled as [nat].  Every subtraction of the
      source ([i - 1], [v.size() - 1]) is evaluated only under a guard that
      makes its result non-negative, so no wrap-around is reachable.
    - [std::vector<T>] is a [list T]; [std::set<std::size_t>] is a red-black
      tree over [nat] ([MSetRBT]), whose in-order traversal is the iteration
      order of the C++ container.
    - A C++ call either returns, throws, or (for an unchecked [operator[]]
      or [erase(end())]) has undefined behaviour; this is the type
      [outcome].  Member functions that mutate the polygon thread the
      polygon explicitly.
    - The [while] loop of [triangulate] is a recursion on a bound of the
      number of iterations; [triangulate] passes the number of points and
      is shown never to exhaust it ([triangulate_terminates]).
    - The diagnostic [printf] calls of [remove_vertex] are not modelled. *)

From Stdlib Require Import List Arith Lia Bool String QArith Lqa.
From Stdlib Require Import MSetRBT MSetFacts SetoidList.
From Stdlib Require Import Floats.
Import ListNotations.

Close Scope Q_scope.
Open Scope nat_scope.

(** ** Outcomes of a call *)

Inductive exception : Type :=
| out_of_range (what : string)
| logic_error (what : string).

Inductive outcome (A : Type) : Type :=
| Ok (a : A)
| Throw (e : exception)
| Undefined.

Arguments Ok {A} a.
Arguments Throw {A} e.
Arguments Undefined {A}.

Definition bind {A B : Type} (m : outcome A) (k : A -> outcome B) : outcome B :=
  match m with
  | Ok a => k a
  | Throw e => Throw e
  | Undefined => Undefined
  end.

Notation "x <- m ;; k" := (bind m (fun x => k))
  (at level 61, m at next level, right associativity).

(** [std::set<std::size_t>] *)
Module NatSet := MSetRBT.Make Nat.
Module NatSetFacts := MSetFacts.Facts NatSet.

(** ** geom.hpp *)

(** [template <typename T> struct triangle { T A, B, C; }] *)
Record triangle (T : Type) : Type :=
  mk_triangle { tri_A : T; tri_B : T; tri_C : T }.

Arguments mk_triangle {T} _ _ _.
Arguments tri_A {T} _.
Arguments tri_B {T} _.
Arguments tri_C {T} _.

Definition Qltb (a b : Q) : bool := negb (Qle_bool b a).

(** The functions of [geom.hpp] in exact arithmetic. *)
Module geom.

#[local] Open Scope Q_scope.

Record vec2 : Type := mk_vec2 { x : Q; y : Q }.

Definition sign (p1 p2 p3 : vec2) : Q :=
  (x p1 - x p3) * (y p2 - y p3) - (x p2 - x p3) * (y p1 - y p3).

Definition point_in_triangle (tri : triangle vec2) (pt : vec2) : bool :=
  let d1 := sign pt (tri_A tri) (tri_B tri) in
  let d2 := sign pt (tri_B tri) (tri_C tri) in
  let d3 := sign pt (tri_C tri) (tri_A tri) in
  let has_neg := Qltb d1 0 || Qltb d2 0 || Qltb d3 0 in
  let has_pos := Qltb 0 d1 || Qltb 0 d2 || Qltb 0 d3 in
  negb (has_neg && has_pos).

(** [det(const vec2 A, const vec2 B, const vec2 C)] *)
Definition det3 (A B C : vec2) : Q :=
  let AB := mk_vec2 (x B - x A) (y B - y A) in
  let BC := mk_vec2 (x C - x B) (y C - y B) in
  (x AB * y BC) - (x BC * y AB).

(** [det(const triangle<vec2> & tri)] *)
Definition det (tri : triangle vec2) : Q :=
  det3 (tri_A tri) (tri_B tri) (tri_C tri).

Definition is_convex (tri : triangle vec2) : bool := Qltb 0 (det tri).

Definition is_reflex (tri : triangle vec2) : bool := Qltb (det tri) 0.

End geom.

(** ** geom.hpp in binary64 *)

(** The same functions with [double] as IEEE 754 binary64.  The operations
    are those of the source, in its order; the literal [0] of a comparison
    is the [double] zero, and [d > 0] is [0 < d]. *)
Module geom64.

#[local] Open Scope float_scope.

Record vec2 : Type := mk_vec2 { x : float; y : float }.

Definition sign (p1 p2 p3 : vec2) : float :=
  (x p1 - x p3) * (y p2 - y p3) - (x p2 - x p3) * (y p1 - y p3).

Definition point_in_triangle (tri : triangle vec2) (pt : vec2) : bool :=
  let d1 := sign pt (tri_A tri) (tri_B tri) in
  let d2 := sign pt (tri_B tri) (tri_C tri) in
  let d3 := sign pt (tri_C tri) (tri_A tri) in
  let has_neg := (d1 <? 0) || (d2 <? 0) || (d3 <? 0) in
  let has_pos := (0 <? d1) || (0 <? d2) || (0 <? d3) in
  negb (has_neg && has_pos).

(** [det(const vec2 A, const vec2 B, const vec2 C)] *)
Definition det3 (A B C : vec2) : float :=
  let AB := mk_vec2 (x B - x A) (y B - y A) in
  let BC := mk_vec2 (x C - x B) (y C - y B) in
  (x AB * y BC) - (x BC * y AB).

(** [det(const triangle<vec2> & tri)] *)
Definition det (tri : triangle vec2) : float :=
  det3 (tri_A tri) (tri_B tri) (tri_C tri).

Definition is_convex (tri : triangle vec2) : bool := 0 <? det tri.

Definition is_reflex (tri : triangle vec2) : bool := det tri <? 0.

End geom64.

(** ** triangulation.cpp: free functions *)

(** [v[i]]: unchecked [operator[]]. *)
Definition vector_index {T : Type} (v : list T) (i : nat) : outcome T :=
  match nth_error v i with
  | Some e => Ok e
  | None => Undefined
  end.

(** [v.at(i)]: checked access; the text of the exception is chosen by the
    standard library. *)
Definition vector_at {T : Type} (v : list T) (i : nat) : outcome T :=
  match nth_error v i with
  | Some e => Ok e
  | None => Throw (out_of_range "vector::at")
  end.

Definition build_triangle_at_index {T : Type} (v : list T) (i : nat)
  : outcome (triangle T) :=
  if length v <=? i then
    Throw (out_of_range "build_triangle_at_index: index is out-of-range.")
  else
    a <- vector_index v (if 0 <? i then i - 1 else length v - 1) ;;
    b <- vector_index v i ;;
    c <- vector_index v (if i <? length v - 1 then i + 1 else length v - 1) ;;
    Ok (mk_triangle a b c).

(** [std::distance(v.begin(), std::find(v.begin(), v.end(), e))], or [None]
    when [std::find] returns [v.end()]. *)
Fixpoint find_index (v : list nat) (e : nat) : option nat :=
  match v with
  | [] => None
  | h :: t => if h =? e then Some 0 else option_map S (find_index t e)
  end.

Definition build_triangle_at_element (v : list nat) (e : nat)
  : outcome (triangle nat) :=
  match find_index v e with
  | None =>
      Throw (logic_error "build_triangle_at_element: element could not be found.")
  | Some i => build_triangle_at_index v i
  end.

Definition make_triangle_real {T : Type} (v : list T) (tri : triangle nat)
  : outcome (triangle T) :=
  a <- vector_at v (tri_A tri) ;;
  b <- vector_at v (tri_B tri) ;;
  c <- vector_at v (tri_C tri) ;;
  Ok (mk_triangle a b c).

Definition fake_triangle : Type := triangle nat.
Definition real_triangle : Type := triangle geom.vec2.

(** [v.erase(std::find(v.begin(), v.end(), e))]: the first occurrence is
    removed; erasing [end()] is undefined. *)
Fixpoint vector_erase_find (v : list nat) (e : nat) : outcome (list nat) :=
  match v with
  | [] => Undefined
  | h :: t =>
      if h =? e then Ok t
      else t' <- vector_erase_find t e ;; Ok (h :: t')
  end.

(** ** class polygon *)

Record polygon : Type := mk_polygon {
  vertices : list geom.vec2;
  vertex_list : list nat;
  convex_list : NatSet.t;
  reflex_list : NatSet.t;
  ear_list : NatSet.t
}.

Definition set_convex_list (p : polygon) (s : NatSet.t) : polygon :=
  mk_polygon (vertices p) (vertex_list p) s (reflex_list p) (ear_list p).
Definition set_reflex_list (p : polygon) (s : NatSet.t) : polygon :=
  mk_polygon (vertices p) (vertex_list p) (convex_list p) s (ear_list p).
Definition set_ear_list (p : polygon) (s : NatSet.t) : polygon :=
  mk_polygon (vertices p) (vertex_list p) (convex_list p) (reflex_list p) s.
Definition set_vertex_list (p : polygon) (l : list nat) : polygon :=
  mk_polygon (vertices p) l (convex_list p) (reflex_list p) (ear_list p).

Definition build_fake_triangle_at (p : polygon) (vertex : nat)
  : outcome fake_triangle :=
  build_triangle_at_element (vertex_list p) vertex.

Definition polygon_make_triangle_real (p : polygon) (fake : fake_triangle)
  : outcome real_triangle :=
  make_triangle_real (vertices p) fake.

Definition build_real_triangle_at (p : polygon) (vertex : nat)
  : outcome real_triangle :=
  fake <- build_fake_triangle_at p vertex ;;
  polygon_make_triangle_real p fake.

Definition is_convex (p : polygon) (vertex : nat) : outcome bool :=
  if NatSet.mem vertex (convex_list p) then Ok true
  else ABC <- build_real_triangle_at p vertex ;; Ok (geom.is_convex ABC).

Definition is_reflex (p : polygon) (vertex : nat) : outcome bool :=
  if NatSet.mem vertex (reflex_list p) then Ok true
  else ABC <- build_real_triangle_at p vertex ;; Ok (geom.is_reflex ABC).

(** The loop of [is_ear] over [reflex_list], in iteration order. *)
Fixpoint is_ear_scan (vs : list geom.vec2) (ABC : real_triangle)
  (reflex : list nat) : outcome bool :=
  match reflex with
  | [] => Ok true
  | reflex_vertex :: rest =>
      pt <- vector_index vs reflex_vertex ;;
      if geom.point_in_triangle ABC pt then Ok false
      else is_ear_scan vs ABC rest
  end.

Definition is_ear (p : polygon) (vertex : nat) (pre_test : bool)
  : outcome bool :=
  if pre_test && NatSet.mem vertex (ear_list p) then Ok true
  else
    ABC <- build_real_triangle_at p vertex ;;
    is_ear_scan (vertices p) ABC (NatSet.elements (reflex_list p)).

Definition update_vertex_convexity (p : polygon) (vertex : nat)
  : outcome (bool * polygon) :=
  c <- is_convex p vertex ;;
  if c then
    let p1 := set_convex_list p (NatSet.add vertex (convex_list p)) in
    let p2 := set_reflex_list p1 (NatSet.remove vertex (reflex_list p1)) in
    Ok (true, p2)
  else Ok (false, p).

Definition update_vertex_earness (p : polygon) (vertex : nat)
  : outcome (bool * polygon) :=
  e <- is_ear p vertex false ;;
  if e then Ok (true, set_ear_list p (NatSet.add vertex (ear_list p)))
  else Ok (false, set_ear_list p (NatSet.remove vertex (ear_list p))).

Definition update_vertex (p : polygon) (vertex : nat) : outcome polygon :=
  r <- update_vertex_convexity p vertex ;;
  if fst r then
    r' <- update_vertex_earness (snd r) vertex ;; Ok (snd r')
  else Ok (snd r).

Definition remove_vertex (p : polygon) (vertex : nat)
  : outcome (fake_triangle * polygon) :=
  ABC <- build_fake_triangle_at p vertex ;;
  l <- vector_erase_find (vertex_list p) vertex ;;
  let p1 := set_vertex_list p l in
  let p2 := set_convex_list p1 (NatSet.remove vertex (convex_list p1)) in
  let p3 := set_reflex_list p2 (NatSet.remove vertex (reflex_list p2)) in
  let p4 := set_ear_list p3 (NatSet.remove vertex (ear_list p3)) in
  p5 <- update_vertex p4 (tri_A ABC) ;;
  p6 <- update_vertex p5 (tri_C ABC) ;;
  Ok (ABC, p6).

Definition has_ear (p : polygon) : bool := negb (NatSet.is_empty (ear_list p)).

Definition get_next_ear (p : polygon) : outcome nat :=
  if NatSet.is_empty (ear_list p) then
    Throw (logic_error "get_next_ear: Ear list is empty.")
  else
    match NatSet.min_elt (ear_list p) with
    | Some e => Ok e
    | None => Undefined
    end.

Definition size (p : polygon) : nat := length (vertex_list p).

(** The constructor.  Its second loop classifies every vertex of the ring,
    its third loop tests the convex vertices for earness. *)
Definition classify_vertex (p : polygon) (vertex : nat) : outcome polygon :=
  ABC <- build_real_triangle_at p vertex ;;
  let p1 := if geom.is_convex ABC
            then set_convex_list p (NatSet.add vertex (convex_list p))
            else p in
  let p2 := if geom.is_reflex ABC
            then set_reflex_list p1 (NatSet.add vertex (reflex_list p1))
            else p1 in
  Ok p2.

Definition seed_ear (p : polygon) (vertex : nat) : outcome polygon :=
  e <- is_ear p vertex false ;;
  if e then Ok (set_ear_list p (NatSet.add vertex (ear_list p))) else Ok p.

Fixpoint for_each (body : polygon -> nat -> outcome polygon)
  (l : list nat) (p : polygon) : outcome polygon :=
  match l with
  | [] => Ok p
  | h :: t => p' <- body p h ;; for_each body t p'
  end.

Definition polygon_new (vs : list geom.vec2) : outcome polygon :=
  let p0 := mk_polygon vs (seq 0 (length vs))
              NatSet.empty NatSet.empty NatSet.empty in
  p1 <- for_each classify_vertex (vertex_list p0) p0 ;;
  for_each seed_ear (NatSet.elements (convex_list p1)) p1.

(** ** The driver *)

Definition non_simple : exception :=
  logic_error "Triangulation failed; polygon is non-simple.".

(** The [while] loop of [triangulate]; [fuel] bounds the number of
    iterations, [None] means the bound was reached. *)
Fixpoint triangulate_loop (fuel : nat) (p : polygon)
  (triangles : list fake_triangle) : option (outcome (list fake_triangle)) :=
  if 2 <? size p then
    match fuel with
    | 0 => None
    | S fuel' =>
        if negb (has_ear p) then Some (Throw non_simple)
        else
          match get_next_ear p with
          | Ok ear_vertex =>
              match remove_vertex p ear_vertex with
              | Ok (ear, p') => triangulate_loop fuel' p' (triangles ++ [ear])
              | Throw e => Some (Throw e)
              | Undefined => Some Undefined
              end
          | Throw e => Some (Throw e)
          | Undefined => Some Undefined
          end
    end
  else Some (Ok triangles).

Definition triangulate (vs : list geom.vec2)
  : option (outcome (list fake_triangle)) :=
  match polygon_new vs with
  | Ok p => triangulate_loop (length vs) p []
  | Throw e => Some (Throw e)
  | Undefined => Some Undefined
  end.

(** * Vocabulary of the properties *)

(** ** Ring positions *)

(** The indices used by [build_triangle_at_index] for the first and the
    third corner. *)
Definition prev_index (n i : nat) : nat := if 0 <? i then i - 1 else n - 1.
Definition next_index (n i : nat) : nat := if i <? n - 1 then i + 1 else n - 1.

Definition distinct_triangle (t : fake_triangle) : Prop :=
  tri_A t <> tri_B t /\ tri_B t <> tri_C t /\ tri_A t <> tri_C t.

Definition valid_triangle (n : nat) (t : fake_triangle) : Prop :=
  distinct_triangle t /\ tri_A t < n /\ tri_B t < n /\ tri_C t < n.

(** The fan of triangles around vertex [n - 1], from vertex [k] on. *)
Definition fan (n k : nat) : list fake_triangle :=
  map (fun i => mk_triangle (n - 1) i (i + 1)) (seq k (n - 2 - k)).

(** ** Classification *)

(** No member of the scanned list has its point inside or on [T]. *)
Definition clear_of (vs : list geom.vec2) (T : real_triangle)
  (member : nat -> Prop) : Prop :=
  forall r pt, member r -> nth_error vs r = Some pt ->
               geom.point_in_triangle T pt = false.

(** The polygon after [update_vertex_convexity] found [u] convex. *)
Definition reclassified (p : polygon) (u : nat) : polygon :=
  mk_polygon (vertices p) (vertex_list p)
    (NatSet.add u (convex_list p)) (NatSet.remove u (reflex_list p))
    (ear_list p).

(** The polygon after [remove_vertex] erased [v] and before it updates the
    neighbours; [l] is the ring without [v]. *)
Definition erased (p : polygon) (l : list nat) (v : nat) : polygon :=
  mk_polygon (vertices p) l
    (NatSet.remove v (convex_list p)) (NatSet.remove v (reflex_list p))
    (NatSet.remove v (ear_list p)).

(** What the constructor establishes: the ring [0..n-1], and the three
    sets seeded from the geometric tests on each vertex's local triangle. *)
Definition freshly_classified (vs : list geom.vec2) (p : polygon) : Prop :=
  vertices p = vs /\ vertex_list p = seq 0 (length vs) /\
  (forall u, NatSet.In u (convex_list p) <->
     exists T, build_real_triangle_at p u = Ok T /\ geom.is_convex T = true) /\
  (forall u, NatSet.In u (reflex_list p) <->
     exists T, build_real_triangle_at p u = Ok T /\ geom.is_reflex T = true) /\
  (forall u, NatSet.In u (ear_list p) <->
     NatSet.In u (convex_list p) /\ is_ear p u false = Ok true).

(** What [remove_vertex p v = Ok (ABC, p')] guarantees about the ear set
    of [p']. *)
Definition ear_set_after (p : polygon) (v : nat) (ABC : fake_triangle)
  (p' : polygon) : Prop :=
  NatSet.Subset (ear_list p') (convex_list p') /\
  (forall u, u <> tri_A ABC -> u <> tri_C ABC ->
     (NatSet.In u (ear_list p') <-> NatSet.In u (ear_list p) /\ u <> v)) /\
  (NatSet.In (tri_C ABC) (ear_list p') <->
     NatSet.In (tri_C ABC) (convex_list p') /\
     exists T, build_real_triangle_at p' (tri_C ABC) = Ok T /\
       clear_of (vertices p') T (fun r => NatSet.In r (reflex_list p'))) /\
  (tri_A ABC <> tri_C ABC ->
     (NatSet.In (tri_A ABC) (ear_list p') <->
        NatSet.In (tri_A ABC) (convex_list p') /\
        exists T, build_real_triangle_at p' (tri_A ABC) = Ok T /\
          clear_of (vertices p') T
            (fun r => NatSet.In r (reflex_list p') \/
                      (r = tri_C ABC /\ r <> v /\
                       NatSet.In r (reflex_list p))))).

(** The ear set holds exactly the members of the convex set whose local
    triangle has no point of a reflex-set member inside or on it. *)
Definition ears_exact (p : polygon) : Prop :=
  forall u, NatSet.In u (ear_list p) <->
    NatSet.In u (convex_list p) /\
    exists T, build_real_triangle_at p u = Ok T /\
      clear_of (vertices p) T (fun r => NatSet.In r (reflex_list p)).

(** The classification sets agree with the ring: no duplicate in the
    ring, convex and reflex vertices are ring vertices, ears are convex,
    and no vertex is both convex and reflex. *)
Definition classification_consistent (p : polygon) : Prop :=
  NoDup (vertex_list p) /\
  (forall u, NatSet.In u (convex_list p) -> In u (vertex_list p)) /\
  (forall u, NatSet.In u (reflex_list p) -> In u (vertex_list p)) /\
  (forall u, NatSet.In u (ear_list p) -> NatSet.In u (convex_list p)) /\
  (forall u, NatSet.In u (convex_list p) -> ~ NatSet.In u (reflex_list p)).

(** ** The invariant of the driver *)

Definition ring_ok (p : polygon) : Prop :=
  NoDup (vertex_list p) /\
  (forall v, In v (vertex_list p) -> v < length (vertices p)) /\
  (forall v, NatSet.In v (reflex_list p) -> v < length (vertices p)).

Definition polygon_inv (p : polygon) : Prop :=
  ring_ok p /\
  (forall v, NatSet.In v (convex_list p) ->
             In v (removelast (vertex_list p))) /\
  (forall v, NatSet.In v (ear_list p) -> NatSet.In v (convex_list p)).

(** One iteration of the [while] loop that does not leave it. *)
Inductive driver_step : polygon -> polygon -> Prop :=
| driver_step_intro (p : polygon) (v : nat) (ear : fake_triangle)
    (p' : polygon) :
    2 < size p -> has_ear p = true ->
    get_next_ear p = Ok v -> remove_vertex p v = Ok (ear, p') ->
    driver_step p p'.

(** The polygons met at the head of the loop, starting from [p]. *)
Inductive driver_reaches (p : polygon) : polygon -> Prop :=
| driver_here : driver_reaches p p
| driver_next (q r : polygon) :
    driver_step p q -> driver_reaches q r -> driver_reaches p r.

(** ** Geometry *)


(** ** Doubles and their exact values *)

(** The rational a finite [double] stands for, in lowest terms; none for
    an infinity or NaN. *)
Definition Qval (f : float) : option Q :=
  match Prim2SF f with
  | S754_zero _ => Some 0%Q
  | S754_finite s m e =>
      Some (Qred (inject_Z (if s then Z.neg m else Z.pos m) * Qpower 2 e))
  | _ => None
  end.

Definition exact_point (p : geom64.vec2) : option geom.vec2 :=
  match Qval (geom64.x p), Qval (geom64.y p) with
  | Some a, Some b => Some (geom.mk_vec2 a b)
  | _, _ => None
  end.

Definition exact_triangle (T : triangle geom64.vec2) : option real_triangle :=
  match exact_point (tri_A T), exact_point (tri_B T), exact_point (tri_C T)
  with
  | Some a, Some b, Some c => Some (mk_triangle a b c)
  | _, _, _ => None
  end.

(** The sign of a [double] as a comparison with zero: [Eq] for either
    zero, [Lt] and [Gt] for the negative and positive numbers and
    infinities, none for NaN. *)
Definition float_sign (d : float) : option comparison :=
  match Prim2SF d with
  | S754_zero _ => Some Eq
  | S754_infinity s | S754_finite s _ _ => Some (if s then Lt else Gt)
  | S754_nan => None
  end.


(** A [double] that is a zero or NaN, as its IEEE 754 datum. *)
Definition zero_or_nan (s : spec_float) : Prop :=
  match s with
  | S754_zero _ | S754_nan => True
  | _ => False
  end.

(** A datum with the sign of a zero forgotten. *)
Definition unsigned_zero (s : spec_float) : spec_float :=
  match s with
  | S754_zero _ => S754_zero false
  | _ => s
  end.

(** The corners of a triangle, rotated and in reverse order. *)
Definition rotate {T : Type} (t : triangle T) : triangle T :=
  mk_triangle (tri_B t) (tri_C t) (tri_A t).

Definition reverse {T : Type} (t : triangle T) : triangle T :=
  mk_triangle (tri_C t) (tri_B t) (tri_A t).

(** ** Simple polygons (the inputs the specification covers) *)

Section SimplePolygon.

#[local] Open Scope Q_scope.

(** Twice the signed area of the triangle [o a b]. *)
Definition cross (o a b : geom.vec2) : Q :=
  (geom.x a - geom.x o) * (geom.y b - geom.y o)
  - (geom.y a - geom.y o) * (geom.x b - geom.x o).

Definition between (a b c : Q) : bool :=
  (Qle_bool a c && Qle_bool c b) || (Qle_bool b c && Qle_bool c a).

(** [c] lies on the closed segment [a b]. *)
Definition on_segment (a b c : geom.vec2) : bool :=
  Qeq_bool (cross a b c) 0
  && between (geom.x a) (geom.x b) (geom.x c)
  && between (geom.y a) (geom.y b) (geom.y c).

(** The closed segments [a b] and [c d] have a common point. *)
Definition segments_meet (a b c d : geom.vec2) : bool :=
  (Qltb (cross a b c * cross a b d) 0 && Qltb (cross c d a * cross c d b) 0)
  || on_segment a b c || on_segment a b d
  || on_segment c d a || on_segment c d b.

End SimplePolygon.

Definition origin : geom.vec2 := geom.mk_vec2 0%Q 0%Q.

(** Edge [i] of the closed contour [vs]. *)
Definition edge (vs : list geom.vec2) (i : nat) : geom.vec2 * geom.vec2 :=
  (nth i vs origin, nth ((i + 1) mod length vs) vs origin).

(** Edges [i < j] are compatible with simplicity: consecutive edges share
    their common endpoint only, other edges are disjoint. *)
Definition edges_apart (vs : list geom.vec2) (i j : nat) : bool :=
  let (a, b) := edge vs i in
  let (c, d) := edge vs j in
  if j =? i + 1 then negb (on_segment a b d) && negb (on_segment c d a)
  else if (i =? 0) && (j =? length vs - 1)
       then negb (on_segment a b c) && negb (on_segment c d b)
       else negb (segments_meet a b c d).

Definition simple_polygon (vs : list geom.vec2) : bool :=
  (3 <=? length vs)
  && forallb (fun i =>
       forallb (edges_apart vs i) (seq (i + 1) (length vs - (i + 1))))
     (seq 0 (length vs)).

(** Twice the signed area of the contour (shoelace formula). *)
Definition signed_area2 (vs : list geom.vec2) : Q :=
  fold_right Qplus 0%Q
    (map (fun i => let (a, b) := edge vs i in
                   (geom.x a * geom.y b - geom.x b * geom.y a)%Q)
         (seq 0 (length vs))).

Definition counter_clockwise (vs : list geom.vec2) : bool :=
  Qltb 0 (signed_area2 vs).

(** ** Example inputs *)

Definition pt (a b : Z) : geom.vec2 := geom.mk_vec2 (inject_Z a) (inject_Z b).

(** A right triangle, a square, and a dart whose vertex 2 is reflex; all
    three are wound counter-clockwise. *)
Definition example_triangle : list geom.vec2 := [pt 0 0; pt 1 0; pt 0 1].
Definition example_square : list geom.vec2 :=
  [pt 0 0; pt 2 0; pt 2 2; pt 0 2].
Definition example_dart : list geom.vec2 := [pt 0 0; pt 4 0; pt 1 1; pt 0 4].

(** The polygon built from [example_triangle], and the polygon left by
    [remove_vertex] of its first ear. *)
Definition triangle_start : polygon :=
  mk_polygon example_triangle [0; 1; 2]
    (NatSet.add 1 (NatSet.add 0 NatSet.empty))
    NatSet.empty
    (NatSet.add 1 (NatSet.add 0 NatSet.empty)).

Definition triangle_clipped : polygon :=
  mk_polygon example_triangle [1; 2]
    (NatSet.add 1 (NatSet.remove 0 (convex_list triangle_start)))
    (NatSet.remove 1 (NatSet.remove 0 (reflex_list triangle_start)))
    (NatSet.add 1 (NatSet.remove 0 (ear_list triangle_start))).

(** The polygon left by [update_vertex] of vertex 1 of [triangle_start]. *)
Definition triangle_updated : polygon :=
  mk_polygon example_triangle [0; 1; 2]
    (NatSet.add 1 (convex_list triangle_start))
    (NatSet.remove 1 (reflex_list triangle_start))
    (NatSet.add 1 (ear_list triangle_start)).

Definition dart_start : polygon :=
  mk_polygon example_dart [0; 1; 2; 3]
    (NatSet.add 1 (NatSet.add 0 NatSet.empty))
    (NatSet.add 2 NatSet.empty)
    NatSet.empty.

Definition square_start : polygon :=
  mk_polygon example_square [0; 1; 2; 3]
    (NatSet.add 2 (NatSet.add 1 (NatSet.add 0 NatSet.empty)))
    NatSet.empty
    (NatSet.add 2 (NatSet.add 1 (NatSet.add 0 NatSet.empty))).

(** Inputs on which rounding, underflow or overflow decides the answer,
    each with its exact value.  [edge_point] is the point [2^-53 * B] of
    the edge [AB] of [edge_triangle]; [tiny_point] lies outside
    [tiny_triangle]; [skew_point] lies outside [unit_triangle];
    [huge_triangle] is wound counter-clockwise; [off_point] is not on the
    line that [flat_triangle] spans. *)
Definition pt64 (a b : float) : geom64.vec2 := geom64.mk_vec2 a b.

Definition unit_triangle : triangle geom64.vec2 :=
  mk_triangle (pt64 0 0) (pt64 1 0) (pt64 0 1).
Definition unit_exact : real_triangle :=
  mk_triangle (pt 0 0) (pt 1 0) (pt 0 1).
Definition skew_point : geom64.vec2 := pt64 1 0x1p-60.
Definition skew_exact : geom.vec2 :=
  geom.mk_vec2 1 (Qmake 1 (Pos.pow 2 60)).



Definition huge_triangle : triangle geom64.vec2 :=
  mk_triangle (pt64 0 0) (pt64 0x1p600 0x1p600) (pt64 0x2p600 0x3p600).
Definition huge_exact : real_triangle :=
  mk_triangle (pt 0 0) (pt (2 ^ 600) (2 ^ 600)) (pt (2 * 2 ^ 600) (3 * 2 ^ 600)).

Definition flat_triangle : triangle geom64.vec2 :=
  mk_triangle (pt64 0 0) (pt64 0x1p-600 0) (pt64 0x1p-600 0).
Definition flat_exact : real_triangle :=
  mk_triangle (pt 0 0)
    (geom.mk_vec2 (Qmake 1 (Pos.pow 2 600)) 0)
    (geom.mk_vec2 (Qmake 1 (Pos.pow 2 600)) 0).
Definition off_point : geom64.vec2 := pt64 0 0x1p-600.
Definition off_exact : geom.vec2 :=
  geom.mk_vec2 0 (Qmake 1 (Pos.pow 2 600)).

(** * Properties *)

(** ** Arithmetic and list helpers *)

Lemma Qltb_lt (a b : Q) : Qltb a b = true <-> (a < b)%Q.
Proof.
  unfold Qltb. rewrite negb_true_iff, <- not_true_iff_false, Qle_bool_iff.
  split; [apply Qnot_le_lt | apply Qlt_not_le].
Qed.

Lemma Qltb_ge (a b : Q) : Qltb a b = false <-> (b <= a)%Q.
Proof.
  unfold Qltb. rewrite negb_false_iff. apply Qle_bool_iff.
Qed.

Ltac inv H := inversion H; subst; clear H.

(** Case analysis on the outcome that feeds a [bind]. *)
Ltac bind_ok H :=
  match type of H with
  | bind ?m _ = Ok _ =>
      let E := fresh "E" in
      destruct m eqn:E; simpl in H; [ | discriminate H | discriminate H ]
  end.

Lemma bind_Ok_inv (A B : Type) (m : outcome A) (k : A -> outcome B) (b : B) :
  bind m k = Ok b -> exists a, m = Ok a /\ k a = Ok b.
Proof.
  destruct m; simpl; intros H; try discriminate. eauto.
Qed.

Lemma find_index_nth (v : list nat) (e i : nat) :
  find_index v e = Some i -> nth_error v i = Some e.
Proof.
  revert i. induction v as [|h t IH]; simpl; intros i H; [discriminate|].
  destruct (Nat.eqb_spec h e) as [->|Hne].
  - inv H. reflexivity.
  - destruct (find_index t e) as [j|]; simpl in H; [|discriminate].
    inv H. simpl. now apply IH.
Qed.

Lemma find_index_lt (v : list nat) (e i : nat) :
  find_index v e = Some i -> i < length v.
Proof.
  intros H. apply find_index_nth in H.
  apply nth_error_Some. congruence.
Qed.

Lemma find_index_In (v : list nat) (e : nat) :
  In e v -> exists i, find_index v e = Some i.
Proof.
  induction v as [|h t IH]; simpl; intros H; [contradiction|].
  destruct (Nat.eqb_spec h e) as [->|Hne]; [eauto|].
  destruct H as [H|H]; [contradiction|].
  destruct (IH H) as [j ->]. simpl. eauto.
Qed.

Lemma find_index_app (l1 l2 : list nat) (e : nat) :
  ~ In e l1 -> find_index (l1 ++ e :: l2) e = Some (length l1).
Proof.
  induction l1 as [|h t IH]; simpl; intros H.
  - now rewrite Nat.eqb_refl.
  - destruct (Nat.eqb_spec h e) as [->|Hne]; [tauto|].
    rewrite IH by tauto. reflexivity.
Qed.

Lemma vector_erase_find_app (l1 l2 : list nat) (e : nat) :
  ~ In e l1 -> vector_erase_find (l1 ++ e :: l2) e = Ok (l1 ++ l2).
Proof.
  induction l1 as [|h t IH]; simpl; intros H.
  - now rewrite Nat.eqb_refl.
  - destruct (Nat.eqb_spec h e) as [->|Hne]; [tauto|].
    rewrite IH by tauto. reflexivity.
Qed.

Lemma NoDup_split (l : list nat) (e : nat) :
  NoDup l -> In e l ->
  exists l1 l2, l = l1 ++ e :: l2 /\ ~ In e l1 /\ ~ In e l2.
Proof.
  intros Hnd Hin. destruct (in_split _ _ Hin) as (l1 & l2 & ->).
  exists l1, l2. split; [reflexivity|].
  apply NoDup_remove_2 in Hnd. rewrite in_app_iff in Hnd. tauto.
Qed.

Lemma nth_error_removelast (T : Type) (l : list T) (i : nat) (e : T) :
  nth_error l i = Some e -> S i < length l -> In e (removelast l).
Proof.
  revert i. induction l as [|h t IH]; intros i Hn Hl; [destruct i; discriminate|].
  destruct t as [|h' t']; [simpl in Hl; lia|].
  change (removelast (h :: h' :: t')) with (h :: removelast (h' :: t')).
  destruct i as [|i]; simpl in Hn.
  - inv Hn. now left.
  - right. apply (IH i); [exact Hn | simpl in *; lia].
Qed.

Lemma In_removelast (T : Type) (l : list T) (e : T) :
  In e (removelast l) -> In e l.
Proof.
  induction l as [|h t IH]; [contradiction|].
  destruct t as [|h' t']; [contradiction|].
  change (removelast (h :: h' :: t')) with (h :: removelast (h' :: t')).
  intros [H|H]; [now left | right; now apply IH].
Qed.

(** ** [build_triangle_at_index] *)

Lemma vector_index_Ok (T : Type) (v : list T) (i : nat) (e : T) :
  vector_index v i = Ok e <-> nth_error v i = Some e.
Proof.
  unfold vector_index. destruct (nth_error v i); split; congruence.
Qed.

Lemma build_triangle_at_index_inv (T : Type) (v : list T) (i : nat)
  (t : triangle T) :
  build_triangle_at_index v i = Ok t ->
  i < length v /\
  nth_error v (prev_index (length v) i) = Some (tri_A t) /\
  nth_error v i = Some (tri_B t) /\
  nth_error v (next_index (length v) i) = Some (tri_C t).
Proof.
  unfold build_triangle_at_index, prev_index, next_index.
  destruct (Nat.leb_spec (length v) i) as [Hle|Hlt]; [discriminate|].
  intros H. bind_ok H. bind_ok H. bind_ok H. inv H. simpl.
  rewrite vector_index_Ok in *. auto.
Qed.

Lemma build_triangle_at_index_total (T : Type) (v : list T) (i : nat) :
  i < length v -> exists t, build_triangle_at_index v i = Ok t.
Proof.
  intros Hlt. unfold build_triangle_at_index.
  destruct (Nat.leb_spec (length v) i) as [Hle|_]; [lia|].
  assert (Hex : forall j, j < length v -> exists e, vector_index v j = Ok e).
  { intros j Hj. unfold vector_index.
    destruct (nth_error v j) eqn:E; [eauto|].
    apply nth_error_None in E. lia. }
  destruct (Hex (if 0 <? i then i - 1 else length v - 1)) as [a ->].
  { destruct (Nat.ltb_spec 0 i); lia. }
  destruct (Hex i Hlt) as [b ->].
  destruct (Hex (if i <? length v - 1 then i + 1 else length v - 1)) as [c ->].
  { destruct (Nat.ltb_spec i (length v - 1)); lia. }
  simpl. eauto.
Qed.

(** ** Degenerate triangles *)

Lemma det3_repeat (a b : geom.vec2) : (geom.det3 a b b == 0)%Q.
Proof. unfold geom.det3. simpl. ring. Qed.

Lemma is_convex_zero (t : real_triangle) :
  (geom.det t == 0)%Q -> geom.is_convex t = false.
Proof.
  intros H. unfold geom.is_convex. apply Qltb_ge. rewrite H. apply Qle_refl.
Qed.

(** ** Point containment *)

Section Containment.

#[local] Open Scope Q_scope.





Lemma point_in_triangle_signs (T : real_triangle) (pt : geom.vec2) :
  geom.point_in_triangle T pt = true <->
  (0 <= geom.sign pt (tri_A T) (tri_B T) /\
   0 <= geom.sign pt (tri_B T) (tri_C T) /\
   0 <= geom.sign pt (tri_C T) (tri_A T))%Q \/
  (geom.sign pt (tri_A T) (tri_B T) <= 0 /\
   geom.sign pt (tri_B T) (tri_C T) <= 0 /\
   geom.sign pt (tri_C T) (tri_A T) <= 0)%Q.
Proof.
  unfold geom.point_in_triangle. cbv zeta.
  rewrite negb_true_iff, andb_false_iff, !orb_false_iff, !Qltb_ge. tauto.
Qed.





(** The corners of a triangle are contained in it. *)
Lemma point_in_triangle_corners (T : real_triangle) :
  geom.point_in_triangle T (tri_A T) = true /\
  geom.point_in_triangle T (tri_B T) = true /\
  geom.point_in_triangle T (tri_C T) = true.
Proof.
  destruct T as [[ax ay] [bx by_] [cx cy]].
  repeat split; apply point_in_triangle_signs;
    unfold geom.sign; simpl;
    destruct (Qlt_le_dec 0 ((ax - cx) * (by_ - cy) - (bx - cx) * (ay - cy)));
    [left|right|left|right|left|right]; repeat split; nra.
Qed.

End Containment.

(** ** The local triangle of a ring vertex *)

Lemma vector_at_Ok (T : Type) (v : list T) (i : nat) (e : T) :
  vector_at v i = Ok e <-> nth_error v i = Some e.
Proof.
  unfold vector_at. destruct (nth_error v i); split; congruence.
Qed.

Lemma make_triangle_real_inv (T : Type) (v : list T) (t : triangle nat)
  (r : triangle T) :
  make_triangle_real v t = Ok r ->
  nth_error v (tri_A t) = Some (tri_A r) /\
  nth_error v (tri_B t) = Some (tri_B r) /\
  nth_error v (tri_C t) = Some (tri_C r).
Proof.
  unfold make_triangle_real. intros H.
  bind_ok H. bind_ok H. bind_ok H. inv H. simpl.
  rewrite vector_at_Ok in *. auto.
Qed.

Lemma make_triangle_real_total (T : Type) (v : list T) (t : triangle nat) :
  tri_A t < length v -> tri_B t < length v -> tri_C t < length v ->
  exists r, make_triangle_real v t = Ok r.
Proof.
  intros Ha Hb Hc. unfold make_triangle_real, vector_at.
  destruct (nth_error v (tri_A t)) eqn:Ea;
    [|apply nth_error_None in Ea; lia].
  destruct (nth_error v (tri_B t)) eqn:Eb;
    [|apply nth_error_None in Eb; lia].
  destruct (nth_error v (tri_C t)) eqn:Ec;
    [|apply nth_error_None in Ec; lia].
  simpl. eauto.
Qed.

Lemma build_fake_triangle_at_inv (p : polygon) (u : nat) (t : fake_triangle) :
  build_fake_triangle_at p u = Ok t ->
  exists i, find_index (vertex_list p) u = Some i /\
            build_triangle_at_index (vertex_list p) i = Ok t /\
            tri_B t = u.
Proof.
  unfold build_fake_triangle_at, build_triangle_at_element.
  destruct (find_index (vertex_list p) u) as [i|] eqn:Ef; [|discriminate].
  intros H. exists i. repeat split; auto.
  apply build_triangle_at_index_inv in H. apply find_index_nth in Ef.
  destruct H as (_ & _ & Hb & _). congruence.
Qed.

Lemma build_fake_triangle_at_members (p : polygon) (u : nat)
  (t : fake_triangle) :
  build_fake_triangle_at p u = Ok t ->
  In (tri_A t) (vertex_list p) /\ In (tri_B t) (vertex_list p) /\
  In (tri_C t) (vertex_list p).
Proof.
  intros H. apply build_fake_triangle_at_inv in H.
  destruct H as (i & _ & H & _). apply build_triangle_at_index_inv in H.
  destruct H as (_ & Ha & Hb & Hc).
  repeat split; eapply nth_error_In; eassumption.
Qed.

Lemma build_real_triangle_at_total (p : polygon) (u : nat) :
  (forall v, In v (vertex_list p) -> v < length (vertices p)) ->
  In u (vertex_list p) ->
  exists T, build_real_triangle_at p u = Ok T.
Proof.
  intros Hb Hin. unfold build_real_triangle_at.
  destruct (find_index_In _ _ Hin) as [i Hi].
  destruct (build_triangle_at_index_total _ (vertex_list p) _ (find_index_lt _ _ _ Hi))
    as [t Ht].
  assert (Hf : build_fake_triangle_at p u = Ok t).
  { unfold build_fake_triangle_at, build_triangle_at_element. now rewrite Hi. }
  rewrite Hf. simpl.
  destruct (build_fake_triangle_at_members _ _ _ Hf) as (Ha & Hb' & Hc).
  apply make_triangle_real_total; auto.
Qed.

(** The triangle only depends on the point array and on the ring. *)
Lemma build_real_triangle_at_ext (p q : polygon) (u : nat) :
  vertices q = vertices p -> vertex_list q = vertex_list p ->
  build_real_triangle_at q u = build_real_triangle_at p u.
Proof.
  intros Hv Hl.
  unfold build_real_triangle_at, build_fake_triangle_at,
    polygon_make_triangle_real.
  now rewrite Hv, Hl.
Qed.

(** A vertex at the last position of the ring gets the triangle
    [(prev, self, self)], which is never convex: a vertex that tests convex
    is not the last one of the ring. *)
Lemma geometric_convex_inner (p : polygon) (u : nat) (T : real_triangle) :
  build_real_triangle_at p u = Ok T ->
  geom.is_convex T = true ->
  In u (removelast (vertex_list p)).
Proof.
  unfold build_real_triangle_at. intros H Hc.
  apply bind_Ok_inv in H. destruct H as (t & Ht & Hr).
  apply build_fake_triangle_at_inv in Ht. destruct Ht as (i & Hi & Ht & HB).
  apply build_triangle_at_index_inv in Ht.
  destruct Ht as (Hlt & _ & Hb & Hn).
  apply make_triangle_real_inv in Hr. destruct Hr as (_ & HrB & HrC).
  destruct (Nat.lt_ge_cases (S i) (length (vertex_list p))) as [Hin|Hlast].
  - rewrite HB in Hb. eapply nth_error_removelast; eassumption.
  - exfalso. unfold next_index in Hn.
    destruct (Nat.ltb_spec i (length (vertex_list p) - 1)); [lia|].
    replace (length (vertex_list p) - 1) with i in Hn by lia.
    assert (tri_C t = tri_B t) as E by congruence.
    rewrite E in HrC. assert (tri_C T = tri_B T) as E' by congruence.
    rewrite is_convex_zero in Hc; [discriminate|].
    unfold geom.det. rewrite E'. apply det3_repeat.
Qed.

(** ** The reflex scan of [is_ear] *)

Lemma elements_In (s : NatSet.t) (u : nat) :
  In u (NatSet.elements s) <-> NatSet.In u s.
Proof.
  rewrite <- NatSet.elements_spec1. rewrite InA_alt.
  split; [intros H; exists u; auto | intros (w & -> & H); exact H].
Qed.

Lemma is_ear_scan_total (vs : list geom.vec2) (T : real_triangle)
  (l : list nat) :
  (forall r, In r l -> r < length vs) ->
  exists b, is_ear_scan vs T l = Ok b.
Proof.
  induction l as [|h t IH]; simpl; intros Hb; [eauto|].
  unfold vector_index.
  destruct (nth_error vs h) eqn:E;
    [|apply nth_error_None in E; specialize (Hb h (or_introl eq_refl)); lia].
  simpl. destruct (geom.point_in_triangle T v); [eauto|].
  apply IH. intros r Hr. apply Hb. now right.
Qed.

Lemma is_ear_scan_spec (vs : list geom.vec2) (T : real_triangle)
  (l : list nat) (b : bool) :
  is_ear_scan vs T l = Ok b ->
  (b = true <-> clear_of vs T (fun r => In r l)).
Proof.
  unfold clear_of. revert b. induction l as [|h t IH]; simpl; intros b H.
  - inv H. split; [intros _ r pt [] | reflexivity].
  - apply bind_Ok_inv in H. destruct H as (pt & Hpt & H).
    apply vector_index_Ok in Hpt.
    destruct (geom.point_in_triangle T pt) eqn:Ein.
    + inv H. split; [discriminate|]. intros Hall.
      rewrite (Hall h pt (or_introl eq_refl) Hpt) in Ein. discriminate.
    + apply IH in H. rewrite H. split.
      * intros Hall r pt' [<-|Hr] Hn; [congruence | eauto].
      * intros Hall r pt' Hr Hn. eauto.
Qed.

Lemma clear_of_iff (vs : list geom.vec2) (T : real_triangle)
  (m1 m2 : nat -> Prop) :
  (forall r, m1 r <-> m2 r) -> (clear_of vs T m1 <-> clear_of vs T m2).
Proof.
  intros H. unfold clear_of.
  split; intros Hc r q Hr; apply Hc; now apply H.
Qed.

(** ** [update_vertex] *)

Lemma update_vertex_inv (p : polygon) (u : nat) (p' : polygon) :
  update_vertex p u = Ok p' ->
  (is_convex p u = Ok false /\ p' = p) \/
  (is_convex p u = Ok true /\
   exists e, is_ear (reclassified p u) u false = Ok e /\
     p' = set_ear_list (reclassified p u)
            (if e then NatSet.add u (ear_list p)
             else NatSet.remove u (ear_list p))).
Proof.
  unfold update_vertex, update_vertex_convexity. intros H.
  destruct (is_convex p u) as [[|]| |] eqn:Ec; cbn [bind fst snd] in H;
    try discriminate.
  - right. split; [reflexivity|].
    unfold update_vertex_earness in H.
    change (set_reflex_list _ _) with (reclassified p u) in H.
    destruct (is_ear (reclassified p u) u false) as [e| |] eqn:Ee;
      cbn [bind] in H; try discriminate.
    exists e. split; [reflexivity|].
    destruct e; cbn [bind snd] in H; now inv H.
  - left. inv H. auto.
Qed.

Lemma is_convex_false_not_cached (p : polygon) (u : nat) :
  is_convex p u = Ok false -> ~ NatSet.In u (convex_list p).
Proof.
  unfold is_convex. intros H Hin. apply NatSet.mem_spec in Hin.
  rewrite Hin in H. discriminate.
Qed.

Lemma update_vertex_same_ring (p : polygon) (u : nat) (p' : polygon) :
  update_vertex p u = Ok p' ->
  vertices p' = vertices p /\ vertex_list p' = vertex_list p.
Proof.
  intros H. apply update_vertex_inv in H.
  destruct H as [[_ ->]|[_ (e & _ & ->)]]; auto.
Qed.

(** [update_vertex u] touches the classification of [u] only. *)
Lemma update_vertex_frame (p : polygon) (u : nat) (p' : polygon) :
  update_vertex p u = Ok p' ->
  forall w, w <> u ->
    (NatSet.In w (convex_list p') <-> NatSet.In w (convex_list p)) /\
    (NatSet.In w (reflex_list p') <-> NatSet.In w (reflex_list p)) /\
    (NatSet.In w (ear_list p') <-> NatSet.In w (ear_list p)).
Proof.
  intros H w Hw. apply update_vertex_inv in H.
  destruct H as [[_ ->]|[_ (e & _ & ->)]]; [tauto|].
  simpl. rewrite NatSet.add_spec, NatSet.remove_spec.
  destruct e; [rewrite NatSet.add_spec | rewrite NatSet.remove_spec];
    intuition congruence.
Qed.

Lemma update_vertex_reflex_shrinks (p : polygon) (u : nat) (p' : polygon) :
  update_vertex p u = Ok p' ->
  forall w, NatSet.In w (reflex_list p') -> NatSet.In w (reflex_list p).
Proof.
  intros H w. apply update_vertex_inv in H.
  destruct H as [[_ ->]|[_ (e & _ & ->)]]; [tauto|].
  simpl. rewrite NatSet.remove_spec. tauto.
Qed.

Lemma update_vertex_ear_subset (p : polygon) (u : nat) (p' : polygon) :
  (forall w, NatSet.In w (ear_list p) -> NatSet.In w (convex_list p)) ->
  update_vertex p u = Ok p' ->
  forall w, NatSet.In w (ear_list p') -> NatSet.In w (convex_list p').
Proof.
  intros Hsub H w. apply update_vertex_inv in H.
  destruct H as [[_ ->]|[_ (e & _ & ->)]]; [auto|].
  simpl. rewrite NatSet.add_spec.
  destruct e; [rewrite NatSet.add_spec | rewrite NatSet.remove_spec];
    intuition auto.
Qed.

(** After [update_vertex u], and provided the ear set was within the convex
    set, [u] is an ear exactly when it is classified convex and the scan of
    the reflex set finds nothing inside or on its local triangle. *)
Lemma update_vertex_ear (p : polygon) (u : nat) (p' : polygon) :
  (forall w, NatSet.In w (ear_list p) -> NatSet.In w (convex_list p)) ->
  update_vertex p u = Ok p' ->
  (NatSet.In u (ear_list p') <->
   NatSet.In u (convex_list p') /\
   exists T, build_real_triangle_at p' u = Ok T /\
     clear_of (vertices p') T (fun r => NatSet.In r (reflex_list p'))).
Proof.
  intros Hsub H. apply update_vertex_inv in H.
  destruct H as [[Hc ->]|[_ (e & He & ->)]].
  - apply is_convex_false_not_cached in Hc. split; [intros Hin | tauto].
    apply Hsub in Hin. contradiction.
  - unfold is_ear in He. simpl andb in He. cbv iota in He.
    apply bind_Ok_inv in He. destruct He as (T & HT & Hscan).
    apply is_ear_scan_spec in Hscan.
    assert (Hclear : e = true <->
      clear_of (vertices p) T
        (fun r => NatSet.In r (NatSet.remove u (reflex_list p)))).
    { rewrite Hscan. unfold clear_of. simpl.
      split; intros Hall r pt Hr; apply Hall; now apply elements_In. }
    rewrite (build_real_triangle_at_ext (reclassified p u)
               (set_ear_list (reclassified p u)
                  (if e then NatSet.add u (ear_list p)
                   else NatSet.remove u (ear_list p)))
               u eq_refl eq_refl).
    simpl. rewrite NatSet.add_spec. split.
    + intros Hin. split; [now left|]. exists T. split; [exact HT|].
      apply Hclear. destruct e; [reflexivity|].
      apply NatSet.remove_spec in Hin. tauto.
    + intros (_ & T' & HT' & Hcl). rewrite HT in HT'. inv HT'.
      apply Hclear in Hcl. subst e. apply NatSet.add_spec. now left.
Qed.

(** ** [remove_vertex] *)

Lemma remove_vertex_inv (p : polygon) (v : nat) (ABC : fake_triangle)
  (p' : polygon) :
  remove_vertex p v = Ok (ABC, p') ->
  build_fake_triangle_at p v = Ok ABC /\
  exists l p5, vector_erase_find (vertex_list p) v = Ok l /\
    update_vertex (erased p l v) (tri_A ABC) = Ok p5 /\
    update_vertex p5 (tri_C ABC) = Ok p'.
Proof.
  unfold remove_vertex. intros H.
  apply bind_Ok_inv in H. destruct H as (t & Ht & H).
  apply bind_Ok_inv in H. destruct H as (l & Hl & H).
  change (set_ear_list _ _) with (erased p l v) in H.
  apply bind_Ok_inv in H. destruct H as (p5 & H5 & H).
  apply bind_Ok_inv in H. destruct H as (p6 & H6 & H).
  inv H. eauto 6.
Qed.

(** Only [v] and the two vertices handed to [update_vertex] can change
    their membership in the classification sets. *)
Lemma remove_vertex_frame (p : polygon) (v : nat) (ABC : fake_triangle)
  (p' : polygon) :
  remove_vertex p v = Ok (ABC, p') ->
  forall w, w <> v -> w <> tri_A ABC -> w <> tri_C ABC ->
    (NatSet.In w (convex_list p') <-> NatSet.In w (convex_list p)) /\
    (NatSet.In w (reflex_list p') <-> NatSet.In w (reflex_list p)) /\
    (NatSet.In w (ear_list p') <-> NatSet.In w (ear_list p)).
Proof.
  intros H w Hv Ha Hc. apply remove_vertex_inv in H.
  destruct H as (_ & l & p5 & _ & H5 & H6).
  destruct (update_vertex_frame _ _ _ H5 _ Ha) as (F1 & F2 & F3).
  destruct (update_vertex_frame _ _ _ H6 _ Hc) as (G1 & G2 & G3).
  rewrite G1, G2, G3, F1, F2, F3. simpl.
  rewrite !NatSet.remove_spec. tauto.
Qed.

(** X21.  Any call of [remove_vertex] that returns, from a polygon whose
    ear set is within its convex set: the ear set is still within the
    convex set; every vertex other than the two updated ones keeps its ear
    membership (the removed vertex leaves the set); the vertex updated last
    is an ear exactly when it is in the convex set and no member of the
    reflex set lies inside or on its local triangle; the vertex updated
    first satisfies the same with the reflex set as it stood before the
    second update. *)
Lemma remove_vertex_ear_set (p : polygon) (v : nat) (ABC : fake_triangle)
  (p' : polygon) :
  NatSet.Subset (ear_list p) (convex_list p) ->
  remove_vertex p v = Ok (ABC, p') ->
  ear_set_after p v ABC p'.
Proof.
  intros Hsub H. apply remove_vertex_inv in H.
  destruct H as (_ & l & p5 & _ & H5 & H6).
  assert (Hsub4 : forall w, NatSet.In w (ear_list (erased p l v)) ->
                            NatSet.In w (convex_list (erased p l v))).
  { simpl. intros w Hw. apply NatSet.remove_spec in Hw.
    apply NatSet.remove_spec. split; [apply Hsub|]; tauto. }
  pose proof (update_vertex_ear_subset _ _ _ Hsub4 H5) as Hsub5.
  pose proof (update_vertex_ear_subset _ _ _ Hsub5 H6) as Hsub6.
  split; [exact Hsub6|]. split; [|split].
  - intros u Ha Hc.
    destruct (update_vertex_frame _ _ _ H5 u Ha) as (_ & _ & F).
    destruct (update_vertex_frame _ _ _ H6 u Hc) as (_ & _ & G).
    rewrite G, F. simpl. apply NatSet.remove_spec.
  - exact (update_vertex_ear _ _ _ Hsub5 H6).
  - intros Hne.
    pose proof (update_vertex_ear _ _ _ Hsub4 H5) as HA.
    destruct (update_vertex_frame _ _ _ H6 (tri_A ABC) Hne) as (G1 & _ & G3).
    destruct (update_vertex_same_ring _ _ _ H6) as (Hv & Hr).
    rewrite G3, G1, HA.
    rewrite (build_real_triangle_at_ext p5 p' (tri_A ABC) Hv Hr), Hv.
    assert (Hmem : forall r, NatSet.In r (reflex_list p5) <->
              NatSet.In r (reflex_list p') \/
              (r = tri_C ABC /\ r <> v /\ NatSet.In r (reflex_list p))).
    { intros r. split.
      - intros Hr5. destruct (Nat.eq_dec r (tri_C ABC)) as [->|Hn].
        + right. apply (update_vertex_reflex_shrinks _ _ _ H5) in Hr5.
          simpl in Hr5. apply NatSet.remove_spec in Hr5. tauto.
        + left. now apply (update_vertex_frame _ _ _ H6 r Hn).
      - intros [Hr'|(-> & Hnv & Hrp)].
        + now apply (update_vertex_reflex_shrinks _ _ _ H6).
        + apply (update_vertex_frame _ _ _ H5 (tri_C ABC)
                   (fun E => Hne (eq_sym E))).
          simpl. apply NatSet.remove_spec. tauto. }
    split; intros (Hc & T & HT & Hcl); (split; [exact Hc|]); exists T;
      (split; [exact HT|]);
      eapply clear_of_iff; try exact Hcl; intros r; simpl;
      [symmetry|]; apply Hmem.
Qed.

(** ** The invariant of the driver *)

Lemma is_convex_total (p : polygon) (u : nat) :
  polygon_inv p -> In u (vertex_list p) ->
  exists c, is_convex p u = Ok c /\
            (c = true -> In u (removelast (vertex_list p))).
Proof.
  intros ((_ & Hb & _) & Hcv & _) Hin. unfold is_convex.
  destruct (NatSet.mem u (convex_list p)) eqn:Em.
  - exists true. split; [reflexivity|]. intros _. apply Hcv.
    now apply NatSet.mem_spec.
  - destruct (build_real_triangle_at_total p u Hb Hin) as [T HT].
    rewrite HT. simpl. exists (geom.is_convex T). split; [reflexivity|].
    intros Hc. eapply geometric_convex_inner; eassumption.
Qed.

Lemma is_ear_total (p : polygon) (u : nat) :
  ring_ok p -> In u (vertex_list p) ->
  exists e, is_ear p u false = Ok e.
Proof.
  intros (_ & Hb & Hr) Hin. unfold is_ear. simpl.
  destruct (build_real_triangle_at_total p u Hb Hin) as [T ->]. simpl.
  apply is_ear_scan_total. intros r Hin'. apply Hr. now apply elements_In.
Qed.

Lemma update_vertex_total (p : polygon) (u : nat) :
  polygon_inv p -> In u (vertex_list p) ->
  exists p', update_vertex p u = Ok p' /\ polygon_inv p'.
Proof.
  intros Hinv Hin.
  destruct (is_convex_total p u Hinv Hin) as (c & Hc & Hinner).
  destruct Hinv as ((Hnd & Hb & Hr) & Hcv & Hear).
  assert (Hok : ring_ok (reclassified p u)).
  { repeat split; simpl; auto. intros w Hw.
    apply NatSet.remove_spec in Hw. apply Hr. tauto. }
  destruct (is_ear_total (reclassified p u) u Hok Hin) as [e He].
  assert (Hex : exists p', update_vertex p u = Ok p').
  { unfold update_vertex, update_vertex_convexity. rewrite Hc.
    destruct c; cbn [bind fst snd]; [|eauto].
    unfold update_vertex_earness.
    change (set_reflex_list _ _) with (reclassified p u).
    rewrite He. destruct e; cbn [bind snd]; eauto. }
  destruct Hex as [p' Hp']. exists p'. split; [exact Hp'|].
  pose proof (update_vertex_ear_subset _ _ _ Hear Hp') as Hear'.
  apply update_vertex_inv in Hp'.
  destruct Hp' as [[_ ->]|[Hc' (e' & _ & ->)]].
  - repeat split; auto.
  - assert (c = true) by congruence. subst c.
    split; [exact Hok|]. split; [|exact Hear'].
    simpl. intros w Hw. apply NatSet.add_spec in Hw.
    destruct Hw as [->|Hw]; auto.
Qed.

Lemma removelast_middle (l1 l2 : list nat) (v c w : nat) :
  In w (removelast (l1 ++ v :: c :: l2)) -> w <> v ->
  In w (removelast (l1 ++ c :: l2)).
Proof.
  rewrite !removelast_app by discriminate.
  change (removelast (v :: c :: l2)) with (v :: removelast (c :: l2)).
  rewrite !in_app_iff. simpl. intuition congruence.
Qed.

Lemma removelast_snoc_In (l1 : list nat) (v : nat) :
  In v (removelast (l1 ++ [v])) -> In v l1.
Proof.
  rewrite removelast_app by discriminate. simpl. now rewrite app_nil_r.
Qed.

(** Removing an ear under the invariant: the call returns, the invariant
    is kept, the ring loses one vertex, and the harvested triangle has
    three distinct corners as soon as the ring had three vertices. *)
Lemma remove_vertex_total (p : polygon) (v : nat) :
  polygon_inv p -> NatSet.In v (ear_list p) ->
  exists ABC p',
    remove_vertex p v = Ok (ABC, p') /\ polygon_inv p' /\
    S (size p') = size p /\ vertices p' = vertices p /\
    In (tri_A ABC) (vertex_list p) /\ In (tri_B ABC) (vertex_list p) /\
    In (tri_C ABC) (vertex_list p) /\
    (2 < size p -> distinct_triangle ABC).
Proof.
  intros Hinv Hear.
  pose proof Hinv as ((Hnd & Hb & Hr) & Hcv & Hsub).
  assert (Hinner : In v (removelast (vertex_list p))) by auto.
  pose proof (In_removelast _ _ _ Hinner) as Hin.
  destruct (NoDup_split _ _ Hnd Hin) as (l1 & l2 & Hring & Hn1 & Hn2).
  destruct l2 as [|c l2].
  { exfalso. rewrite Hring in Hinner. apply Hn1.
    now apply removelast_snoc_In. }
  pose proof (find_index_app l1 (c :: l2) v Hn1) as Hfi.
  rewrite <- Hring in Hfi.
  destruct (build_triangle_at_index_total _ (vertex_list p) _
              (find_index_lt _ _ _ Hfi)) as [ABC Hidx].
  assert (Hfake : build_fake_triangle_at p v = Ok ABC).
  { unfold build_fake_triangle_at, build_triangle_at_element.
    now rewrite Hfi. }
  destruct (build_fake_triangle_at_members _ _ _ Hfake) as (HA & HB & HC).
  pose proof (build_triangle_at_index_inv _ _ _ _ Hidx) as (Hlt & Ha & Hbb & Hc).
  assert (Hlen : length (vertex_list p) = length l1 + S (S (length l2))).
  { rewrite Hring, length_app. reflexivity. }
  set (n := length (vertex_list p)) in *. set (i := length l1) in *.
  assert (Hpi : prev_index n i < n /\ prev_index n i <> i).
  { unfold prev_index. destruct (Nat.ltb_spec 0 i); lia. }
  assert (Hni : next_index n i = i + 1).
  { unfold next_index. destruct (Nat.ltb_spec i (n - 1)); lia. }
  assert (Hdiff : forall j k a b, j < n -> j <> k ->
             nth_error (vertex_list p) j = Some a ->
             nth_error (vertex_list p) k = Some b -> a <> b).
  { intros j k a b Hj Hjk Hja Hkb ->. apply Hjk.
    apply (proj1 (NoDup_nth_error (vertex_list p)) Hnd); [exact Hj|].
    congruence. }
  assert (HBv : tri_B ABC = v).
  { apply find_index_nth in Hfi. congruence. }
  assert (HAv : tri_A ABC <> v).
  { rewrite <- HBv. apply (Hdiff (prev_index n i) i); tauto. }
  assert (HCv : tri_C ABC <> v).
  { rewrite <- HBv. rewrite Hni in Hc.
    apply (Hdiff (i + 1) i); auto; lia. }
  pose proof (vector_erase_find_app l1 (c :: l2) v Hn1) as Her.
  rewrite <- Hring in Her.
  assert (Hmem : forall w, In w (vertex_list p) -> w <> v ->
                           In w (l1 ++ c :: l2)).
  { intros w Hw Hwv. rewrite Hring in Hw. rewrite in_app_iff in *.
    simpl in *. intuition congruence. }
  assert (Hinv4 : polygon_inv (erased p (l1 ++ c :: l2) v)).
  { repeat split; simpl.
    - rewrite Hring in Hnd. now apply NoDup_remove_1 in Hnd.
    - intros w Hw. apply Hb. rewrite Hring. rewrite in_app_iff in *.
      simpl in *. tauto.
    - intros w Hw. apply NatSet.remove_spec in Hw. apply Hr. tauto.
    - intros w Hw. apply NatSet.remove_spec in Hw. destruct Hw as [Hw Hne].
      apply removelast_middle with (v := v); [|exact Hne].
      rewrite <- Hring. auto.
    - intros w Hw. apply NatSet.remove_spec in Hw.
      apply NatSet.remove_spec. split; [apply Hsub|]; tauto. }
  destruct (update_vertex_total (erased p (l1 ++ c :: l2) v) (tri_A ABC)
              Hinv4 (Hmem _ HA HAv)) as (p5 & H5 & Hinv5).
  destruct (update_vertex_same_ring _ _ _ H5) as (Hv5 & Hl5).
  assert (HC5 : In (tri_C ABC) (vertex_list p5)).
  { rewrite Hl5. simpl. auto. }
  destruct (update_vertex_total p5 (tri_C ABC) Hinv5 HC5)
    as (p6 & H6 & Hinv6).
  destruct (update_vertex_same_ring _ _ _ H6) as (Hv6 & Hl6).
  exists ABC, p6. split.
  { unfold remove_vertex. rewrite Hfake. cbn [bind]. rewrite Her. cbn [bind].
    change (set_ear_list _ _) with (erased p (l1 ++ c :: l2) v).
    rewrite H5. cbn [bind]. rewrite H6. reflexivity. }
  split; [exact Hinv6|].
  split. { unfold size. rewrite Hl6, Hl5. simpl. fold n.
           rewrite length_app. simpl. fold i. lia. }
  split. { rewrite Hv6, Hv5. reflexivity. }
  repeat split; auto.
  - rewrite HBv. auto.
  - rewrite HBv. auto.
  - unfold size in H. fold n in H. rewrite Hni in Hc.
    apply (Hdiff (prev_index n i) (i + 1)); try tauto.
    unfold prev_index. destruct (Nat.ltb_spec 0 i); lia.
Qed.

(** ** The ring around a removed vertex *)

Lemma last_cons (T : Type) (a : T) (m : list T) (d : T) :
  last (a :: m) d = last m a.
Proof.
  revert a d. induction m as [|b m IH]; intros a d; [reflexivity|].
  change (last (a :: b :: m) d) with (last (b :: m) d).
  rewrite (IH b d), (IH b a). reflexivity.
Qed.

Lemma last_app_cons (T : Type) (l : list T) (a : T) (m : list T) (d : T) :
  last (l ++ a :: m) d = last m a.
Proof.
  induction l as [|h t IH]; simpl app; [apply last_cons|].
  rewrite last_cons. rewrite <- IH.
  destruct t; simpl app; rewrite !last_cons; reflexivity.
Qed.

Lemma nth_error_last_cons (T : Type) (a : T) (m : list T) :
  nth_error (a :: m) (length m) = Some (last m a).
Proof.
  revert a. induction m as [|b m IH]; intros a; [reflexivity|].
  simpl length. change (nth_error (a :: b :: m) (S (length m)))
    with (nth_error (b :: m) (length m)).
  rewrite IH, last_cons. reflexivity.
Qed.

(** The triple captured for an element of a duplicate-free ring, read off
    the ring split at that element. *)
Lemma build_triangle_at_element_split (xs : list nat) (u : nat)
  (ys : list nat) :
  ~ In u xs ->
  build_triangle_at_element (xs ++ u :: ys) u
  = Ok (mk_triangle (last xs (last ys u)) u (hd u ys)).
Proof.
  intros Hn. unfold build_triangle_at_element.
  rewrite find_index_app by exact Hn.
  unfold build_triangle_at_index. rewrite length_app. simpl length.
  destruct (Nat.leb_spec (length xs + S (length ys)) (length xs)); [lia|].
  assert (Ha : vector_index (xs ++ u :: ys)
                 (if 0 <? length xs then length xs - 1
                  else length xs + S (length ys) - 1)
               = Ok (last xs (last ys u))).
  { apply vector_index_Ok. destruct xs as [|h t].
    - simpl. replace (length ys - 0) with (length ys) by lia.
      apply nth_error_last_cons.
    - simpl length. simpl Nat.ltb. cbv iota.
      replace (S (length t) - 1) with (length t) by lia.
      rewrite nth_error_app1 by (simpl; lia).
      rewrite nth_error_last_cons, last_cons. reflexivity. }
  assert (Hb : vector_index (xs ++ u :: ys) (length xs) = Ok u).
  { apply vector_index_Ok. rewrite nth_error_app2 by lia.
    now rewrite Nat.sub_diag. }
  assert (Hc : vector_index (xs ++ u :: ys)
                 (if length xs <? length xs + S (length ys) - 1
                  then length xs + 1
                  else length xs + S (length ys) - 1)
               = Ok (hd u ys)).
  { apply vector_index_Ok. rewrite nth_error_app2.
    - destruct ys as [|c ys]; simpl length.
      + destruct (Nat.ltb_spec (length xs) (length xs + 1 - 1)); [lia|].
        replace (length xs + 1 - 1 - length xs) with 0 by lia. reflexivity.
      + destruct (Nat.ltb_spec (length xs)
                    (length xs + S (S (length ys)) - 1)); [|lia].
        replace (length xs + 1 - length xs) with 1 by lia. reflexivity.
    - destruct (Nat.ltb_spec (length xs) (length xs + S (length ys) - 1));
        lia. }
  rewrite Ha, Hb, Hc. reflexivity.
Qed.

(** Removing the inner vertex [v] leaves the captured triple of every
    vertex unchanged, except for the two ring neighbours of [v]. *)
Lemma local_triangle_unchanged (l1 : list nat) (v c : nat) (l2 : list nat)
  (u : nat) :
  NoDup (l1 ++ v :: c :: l2) ->
  In u (l1 ++ c :: l2) ->
  u <> c -> u <> last l1 (last (c :: l2) v) ->
  build_triangle_at_element (l1 ++ v :: c :: l2) u
  = build_triangle_at_element (l1 ++ c :: l2) u.
Proof.
  intros Hnd Hin Hc Ha.
  assert (Hnd' : NoDup (l1 ++ c :: l2)) by (now apply NoDup_remove_1 in Hnd).
  apply in_app_or in Hin. destruct Hin as [Hin|[Heq|Hin]]; [|congruence|].
  - (* [u] before [v] *)
    destruct (in_split _ _ Hin) as (xs & ys & ->).
    assert (Hxs : ~ In u xs).
    { rewrite <- !app_assoc in Hnd'. simpl in Hnd'.
      apply NoDup_remove_2 in Hnd'. rewrite in_app_iff in Hnd'. tauto. }
    rewrite <- !app_assoc. simpl app.
    rewrite !build_triangle_at_element_split by exact Hxs.
    rewrite !last_app_cons, !last_cons. f_equal. f_equal.
    destruct ys as [|y ys]; [|reflexivity].
    exfalso. apply Ha. now rewrite last_last.
  - (* [u] after the successor of [v] *)
    destruct (in_split _ _ Hin) as (xs & ys & ->).
    assert (Hsplit : forall pre, ~ In u pre -> ~ In u xs ->
              build_triangle_at_element (pre ++ c :: xs ++ u :: ys) u
              = Ok (mk_triangle (last xs c) u (hd u ys))).
    { intros pre Hp Hx.
      replace (pre ++ c :: xs ++ u :: ys) with ((pre ++ c :: xs) ++ u :: ys)
        by (now rewrite <- app_assoc).
      rewrite build_triangle_at_element_split.
      - now rewrite last_app_cons.
      - rewrite in_app_iff. simpl. intuition congruence. }
    assert (Hu : ~ In u l1 /\ ~ In u xs /\ u <> v).
    { replace (l1 ++ v :: c :: xs ++ u :: ys)
        with ((l1 ++ v :: c :: xs) ++ u :: ys) in Hnd
        by (rewrite <- app_assoc; reflexivity).
      apply NoDup_remove_2 in Hnd. rewrite !in_app_iff in Hnd. simpl in Hnd.
      rewrite ?in_app_iff in Hnd. intuition congruence. }
    destruct Hu as (Hu1 & Hu2 & Huv).
    replace (l1 ++ v :: c :: xs ++ u :: ys)
      with ((l1 ++ [v]) ++ c :: xs ++ u :: ys)
      by (rewrite <- app_assoc; reflexivity).
    rewrite !Hsplit; auto.
    rewrite in_app_iff. simpl. intuition congruence.
Qed.

(** ** The constructor *)

(** Loop rule for [for_each]: [I done q] relates the elements already
    visited to the polygon reached. *)
Lemma for_each_rule (body : polygon -> nat -> outcome polygon)
  (I : list nat -> polygon -> Prop) (l : list nat) :
  (forall done u q, I done q -> In u l ->
     exists q', body q u = Ok q' /\ I (done ++ [u]) q') ->
  forall done p, I done p ->
  exists p', for_each body l p = Ok p' /\ I (done ++ l) p'.
Proof.
  induction l as [|h t IH]; intros Hstep done p HI; simpl.
  - exists p. rewrite app_nil_r. auto.
  - destruct (Hstep done h p HI (or_introl eq_refl)) as (q & -> & Hq).
    simpl. destruct (IH (fun d u q0 H Hin => Hstep d u q0 H (or_intror Hin))
                        (done ++ [h]) q Hq) as (p' & Hp' & HI').
    exists p'. split; [exact Hp'|]. now rewrite <- app_assoc in HI'.
Qed.

Lemma is_ear_ext (p q : polygon) (u : nat) :
  vertices q = vertices p -> vertex_list q = vertex_list p ->
  reflex_list q = reflex_list p ->
  is_ear q u false = is_ear p u false.
Proof.
  intros Hv Hl Hr. unfold is_ear. simpl.
  rewrite (build_real_triangle_at_ext p q u Hv Hl), Hv, Hr. reflexivity.
Qed.

Lemma build_real_triangle_at_In (p : polygon) (u : nat) (T : real_triangle) :
  build_real_triangle_at p u = Ok T -> In u (vertex_list p).
Proof.
  unfold build_real_triangle_at. intros H.
  apply bind_Ok_inv in H. destruct H as (t & Ht & _).
  apply build_fake_triangle_at_inv in Ht. destruct Ht as (i & Hi & _).
  apply find_index_nth in Hi. eapply nth_error_In. exact Hi.
Qed.

Lemma classify_vertex_total (q : polygon) (u : nat) (T : real_triangle) :
  build_real_triangle_at q u = Ok T ->
  exists q', classify_vertex q u = Ok q' /\
    vertices q' = vertices q /\ vertex_list q' = vertex_list q /\
    ear_list q' = ear_list q /\
    (forall w, NatSet.In w (convex_list q') <->
       (w = u /\ geom.is_convex T = true) \/ NatSet.In w (convex_list q)) /\
    (forall w, NatSet.In w (reflex_list q') <->
       (w = u /\ geom.is_reflex T = true) \/ NatSet.In w (reflex_list q)).
Proof.
  intros HT. unfold classify_vertex. rewrite HT. cbn [bind].
  eexists. split; [reflexivity|].
  destruct (geom.is_convex T), (geom.is_reflex T); simpl;
    repeat split; auto; rewrite ?NatSet.add_spec; intuition congruence.
Qed.

Lemma seed_ear_total (q : polygon) (u : nat) (e : bool) :
  is_ear q u false = Ok e ->
  exists q', seed_ear q u = Ok q' /\
    vertices q' = vertices q /\ vertex_list q' = vertex_list q /\
    convex_list q' = convex_list q /\ reflex_list q' = reflex_list q /\
    (forall w, NatSet.In w (ear_list q') <->
       (w = u /\ e = true) \/ NatSet.In w (ear_list q)).
Proof.
  intros He. unfold seed_ear. rewrite He. cbn [bind].
  destruct e; eexists; (split; [reflexivity|]); simpl;
    repeat split; auto; rewrite ?NatSet.add_spec; intuition congruence.
Qed.

Lemma polygon_new_spec (vs : list geom.vec2) :
  exists p, polygon_new vs = Ok p /\ freshly_classified vs p.
Proof.
  unfold polygon_new.
  set (p0 := mk_polygon vs (seq 0 (length vs))
               NatSet.empty NatSet.empty NatSet.empty).
  assert (Hb0 : forall v, In v (vertex_list p0) -> v < length (vertices p0)).
  { simpl. intros v Hv. apply in_seq in Hv. lia. }
  (* second loop of the constructor *)
  destruct (for_each_rule classify_vertex
    (fun done q =>
       vertices q = vs /\ vertex_list q = seq 0 (length vs) /\
       ear_list q = NatSet.empty /\
       (forall u, NatSet.In u (convex_list q) <-> In u done /\
          exists T, build_real_triangle_at p0 u = Ok T /\
                    geom.is_convex T = true) /\
       (forall u, NatSet.In u (reflex_list q) <-> In u done /\
          exists T, build_real_triangle_at p0 u = Ok T /\
                    geom.is_reflex T = true))
    (vertex_list p0)) with (done := @nil nat) (p := p0)
    as (p1 & Hp1 & Hv1 & Hl1 & He1 & Hc1 & Hr1).
  { intros done u q (Hv & Hl & He & Hc & Hr) Hin.
    destruct (build_real_triangle_at_total p0 u Hb0 Hin) as [T HT].
    assert (Hq : build_real_triangle_at q u = Ok T).
    { now rewrite (build_real_triangle_at_ext p0 q u Hv Hl). }
    destruct (classify_vertex_total q u T Hq) as (q' & Hq' & Hs).
    exists q'. split; [exact Hq'|].
    destruct Hs as (Hv' & Hl' & He' & Hc' & Hr').
    rewrite Hv', Hl', He'. repeat split; auto.
    - apply Hc' in H. rewrite in_app_iff. simpl.
      destruct H as [[-> _]|H]; [tauto | apply Hc in H; tauto].
    - apply Hc' in H. destruct H as [[-> H]|H]; [eauto | apply Hc in H; tauto].
    - rewrite in_app_iff. simpl. intros [[Hd|[<-|[]]] (T' & HT' & Hcx)];
        apply Hc'; [right; apply Hc; eauto | left; split; congruence].
    - apply Hr' in H. rewrite in_app_iff. simpl.
      destruct H as [[-> _]|H]; [tauto | apply Hr in H; tauto].
    - apply Hr' in H. destruct H as [[-> H]|H]; [eauto | apply Hr in H; tauto].
    - rewrite in_app_iff. simpl. intros [[Hd|[<-|[]]] (T' & HT' & Hcx)];
        apply Hr'; [right; apply Hr; eauto | left; split; congruence]. }
  { simpl. repeat split; auto;
      try (exfalso; eapply NatSetFacts.empty_iff; eassumption);
      try (intros [[] _]). }
  simpl app in *. rewrite Hp1. cbn [bind].
  assert (Hb1 : forall v, In v (vertex_list p1) -> v < length (vertices p1)).
  { rewrite Hl1, Hv1. exact Hb0. }
  assert (Hok1 : ring_ok p1).
  { repeat split; auto.
    - rewrite Hl1. apply seq_NoDup.
    - intros v Hv. apply Hr1 in Hv. apply Hb1. rewrite Hl1. tauto. }
  (* third loop of the constructor *)
  destruct (for_each_rule seed_ear
    (fun done q =>
       vertices q = vertices p1 /\ vertex_list q = vertex_list p1 /\
       convex_list q = convex_list p1 /\ reflex_list q = reflex_list p1 /\
       (forall u, NatSet.In u (ear_list q) <->
                  In u done /\ is_ear p1 u false = Ok true))
    (NatSet.elements (convex_list p1))) with (done := @nil nat) (p := p1)
    as (p2 & Hp2 & Hv2 & Hl2 & Hc2 & Hr2 & He2).
  { intros done u q (Hv & Hl & Hc & Hr & He) Hin.
    assert (Hu : In u (vertex_list p1)).
    { apply elements_In, Hc1 in Hin. rewrite Hl1. tauto. }
    destruct (is_ear_total p1 u Hok1 Hu) as [e Hee].
    assert (Hq : is_ear q u false = Ok e).
    { now rewrite (is_ear_ext p1 q u Hv Hl Hr). }
    destruct (seed_ear_total q u e Hq) as (q' & Hq' & Hs).
    exists q'. split; [exact Hq'|].
    destruct Hs as (Hv' & Hl' & Hc' & Hr' & He').
    rewrite Hv', Hl', Hc', Hr'. repeat split; auto.
    - apply He' in H. rewrite in_app_iff. simpl.
      destruct H as [[-> _]|H]; [tauto | apply He in H; tauto].
    - apply He' in H. destruct H as [[-> ->]|H];
        [exact Hee | apply He in H; tauto].
    - rewrite in_app_iff. simpl. intros [[Hd|[<-|[]]] Ht];
        apply He'; [right; apply He; auto | left; split; congruence]. }
  { repeat split; auto; rewrite He1 in *;
      try (exfalso; eapply NatSetFacts.empty_iff; eassumption);
      try (intros [[] _]). }
  simpl app in *. exists p2. split; [exact Hp2|].
  assert (Hext : forall u, build_real_triangle_at p2 u
                           = build_real_triangle_at p0 u).
  { intros u. apply build_real_triangle_at_ext.
    - now rewrite Hv2, Hv1.
    - now rewrite Hl2, Hl1. }
  unfold freshly_classified.
  rewrite Hv2, Hl2, Hc2, Hr2. repeat split; auto.
  - intros Hu. apply Hc1 in Hu. rewrite Hext. tauto.
  - rewrite Hext. intros (T & HT & Hcx). apply Hc1. split; [|eauto].
    apply build_real_triangle_at_In in HT. exact HT.
  - intros Hu. apply Hr1 in Hu. rewrite Hext. tauto.
  - rewrite Hext. intros (T & HT & Hcx). apply Hr1. split; [|eauto].
    apply build_real_triangle_at_In in HT. exact HT.
  - apply He2 in H. destruct H as [H _]. now apply elements_In in H.
  - apply He2 in H. rewrite (is_ear_ext p1 p2 u Hv2 Hl2 Hr2). tauto.
  - intros [Hu He]. apply He2. split; [now apply elements_In|].
    now rewrite <- (is_ear_ext p1 p2 u Hv2 Hl2 Hr2).
Qed.

Lemma freshly_classified_inv (vs : list geom.vec2) (p : polygon) :
  freshly_classified vs p -> polygon_inv p /\ size p = length vs.
Proof.
  intros (Hv & Hl & Hc & Hr & He).
  assert (Hb : forall v, In v (vertex_list p) -> v < length (vertices p)).
  { rewrite Hl, Hv. intros v Hin. apply in_seq in Hin. lia. }
  split; [|unfold size; now rewrite Hl, length_seq].
  repeat split; auto.
  - rewrite Hl. apply seq_NoDup.
  - intros v Hin. apply Hr in Hin. destruct Hin as (T & HT & _).
    apply Hb. eapply build_real_triangle_at_In. exact HT.
  - intros v Hin. apply Hc in Hin. destruct Hin as (T & HT & Hcx).
    eapply geometric_convex_inner; eassumption.
  - intros v Hin. apply He in Hin. tauto.
Qed.

(** ** The driver loop *)

Lemma min_elt_smallest (s : NatSet.t) :
  NatSet.is_empty s = false ->
  exists e, NatSet.min_elt s = Some e /\ NatSet.In e s /\
            forall u, NatSet.In u s -> e <= u.
Proof.
  intros Hne. destruct (NatSet.min_elt s) as [e|] eqn:Em.
  - exists e. split; [reflexivity|]. split.
    + now apply NatSet.min_elt_spec1.
    + intros u Hu. pose proof (NatSet.min_elt_spec2 Em Hu) as Hlt. lia.
  - apply NatSet.min_elt_spec3 in Em. apply NatSet.is_empty_spec in Em.
    congruence.
Qed.

Lemma get_next_ear_member (p : polygon) :
  has_ear p = true ->
  exists v, get_next_ear p = Ok v /\ NatSet.In v (ear_list p).
Proof.
  unfold has_ear, get_next_ear. rewrite negb_true_iff. intros Hne.
  rewrite Hne. destruct (min_elt_smallest _ Hne) as (e & -> & Hin & _).
  eauto.
Qed.

Lemma triangulate_loop_eq (fuel : nat) (p : polygon)
  (triangles : list fake_triangle) :
  triangulate_loop fuel p triangles =
  if 2 <? size p then
    match fuel with
    | 0 => None
    | S fuel' =>
        if negb (has_ear p) then Some (Throw non_simple)
        else
          match get_next_ear p with
          | Ok ear_vertex =>
              match remove_vertex p ear_vertex with
              | Ok (ear, p') => triangulate_loop fuel' p' (triangles ++ [ear])
              | Throw e => Some (Throw e)
              | Undefined => Some Undefined
              end
          | Throw e => Some (Throw e)
          | Undefined => Some Undefined
          end
    end
  else Some (Ok triangles).
Proof. destruct fuel; reflexivity. Qed.

(** With the invariant and enough fuel the loop either reports a
    non-simple polygon or returns, having appended one valid triangle per
    vertex of the ring beyond the second. *)
Lemma triangulate_loop_cases (fuel : nat) :
  forall p acc, polygon_inv p -> size p <= fuel + 2 ->
  triangulate_loop fuel p acc = Some (Throw non_simple) \/
  exists ts, triangulate_loop fuel p acc = Some (Ok (acc ++ ts)) /\
             length ts = size p - 2 /\
             Forall (valid_triangle (length (vertices p))) ts.
Proof.
  induction fuel as [|fuel IH]; intros p acc Hinv Hsz;
    rewrite triangulate_loop_eq;
    destruct (Nat.ltb_spec 2 (size p)) as [Hgt|Hle]; try lia;
    try (right; exists []; rewrite app_nil_r;
         split; [reflexivity | split; [simpl; lia | constructor]]).
  destruct (has_ear p) eqn:Hear; simpl; [|now left].
  destruct (get_next_ear_member p Hear) as (v & -> & Hv).
  destruct (remove_vertex_total p v Hinv Hv)
    as (ABC & p' & -> & Hinv' & Hsz' & Hvs & HA & HB & HC & Hd).
  destruct (IH p' (acc ++ [ABC]) Hinv' ltac:(lia)) as [->|(ts & -> & Hl & Hf)];
    [now left|].
  right. exists (ABC :: ts). rewrite <- app_assoc. split; [reflexivity|].
  split; [simpl; lia|]. constructor.
  - destruct Hinv as ((_ & Hb & _) & _). repeat split; auto; apply Hd, Hgt.
  - now rewrite <- Hvs.
Qed.

Lemma triangulate_cases (vs : list geom.vec2) :
  triangulate vs = Some (Throw non_simple) \/
  exists ts, triangulate vs = Some (Ok ts) /\
             length ts = length vs - 2 /\
             Forall (valid_triangle (length vs)) ts.
Proof.
  unfold triangulate.
  destruct (polygon_new_spec vs) as (p & Hp & Hf). rewrite Hp.
  destruct (freshly_classified_inv vs p Hf) as (Hinv & Hsz).
  destruct Hf as (Hv & _).
  destruct (triangulate_loop_cases (length vs) p [] Hinv ltac:(lia))
    as [H|(ts & H & Hl & Hfa)]; [now left|].
  right. exists ts. rewrite Hv, Hsz in *. auto.
Qed.

(** The failure of the loop does not depend on the triangles collected
    so far: none of them reaches the caller. *)
Lemma triangulate_loop_throw_acc (fuel : nat) :
  forall p acc acc' e,
  triangulate_loop fuel p acc = Some (Throw e) ->
  triangulate_loop fuel p acc' = Some (Throw e).
Proof.
  induction fuel as [|fuel IH]; intros p acc acc' e;
    rewrite !triangulate_loop_eq;
    destruct (2 <? size p); try discriminate.
  destruct (negb (has_ear p)); [auto|].
  destruct (get_next_ear p) as [v| |]; auto.
  destruct (remove_vertex p v) as [[ear p']| |]; auto.
  apply IH.
Qed.

Lemma triangulate_loop_throws (fuel : nat) :
  forall p acc e, polygon_inv p -> size p <= fuel + 2 ->
  triangulate_loop fuel p acc = Some (Throw e) ->
  e = non_simple /\
  exists q, driver_reaches p q /\ 2 < size q /\ has_ear q = false.
Proof.
  induction fuel as [|fuel IH]; intros p acc e Hinv Hsz;
    rewrite triangulate_loop_eq;
    destruct (Nat.ltb_spec 2 (size p)) as [Hgt|Hle]; try lia;
    try discriminate.
  destruct (has_ear p) eqn:Hear; simpl.
  - destruct (get_next_ear_member p Hear) as (v & Hg & Hv). rewrite Hg.
    destruct (remove_vertex_total p v Hinv Hv)
      as (ABC & p' & Hr & Hinv' & Hsz' & _). rewrite Hr.
    intros H. destruct (IH p' _ e Hinv' ltac:(lia) H) as (-> & q & Hq & Hq').
    split; [reflexivity|]. exists q. split; [|exact Hq'].
    eapply driver_next; [|exact Hq]. econstructor; eassumption.
  - intros H. inv H. split; [reflexivity|]. exists p.
    split; [constructor | auto].
Qed.

Lemma triangulate_loop_reaches (p q : polygon) :
  driver_reaches p q ->
  forall fuel acc, polygon_inv p -> size p <= fuel + 2 ->
  2 < size q -> has_ear q = false ->
  triangulate_loop fuel p acc = Some (Throw non_simple).
Proof.
  induction 1 as [p|p q r Hstep Hreach IH]; intros fuel acc Hinv Hsz Hgt Hno;
    rewrite triangulate_loop_eq.
  - destruct (Nat.ltb_spec 2 (size p)); [|lia].
    destruct fuel; [lia|]. now rewrite Hno.
  - destruct Hstep as [p v ear p' Hgt' Hear Hg Hr].
    destruct (Nat.ltb_spec 2 (size p)); [|lia].
    destruct fuel; [lia|]. rewrite Hear, Hg, Hr. simpl.
    assert (Hv : NatSet.In v (ear_list p)).
    { destruct (get_next_ear_member p Hear) as (v' & Hg' & Hv').
      congruence. }
    destruct (remove_vertex_total p v Hinv Hv)
      as (ABC & p'' & Hr' & Hinv' & Hsz' & _).
    rewrite Hr in Hr'. inv Hr'. apply IH; auto. lia.
Qed.

(** ** Exactness of the ear set along the driver *)

Lemma is_ear_true_iff (p : polygon) (u : nat) :
  ring_ok p ->
  (is_ear p u false = Ok true <->
   exists T, build_real_triangle_at p u = Ok T /\
     clear_of (vertices p) T (fun r => NatSet.In r (reflex_list p))).
Proof.
  intros (_ & _ & Hr). unfold is_ear. simpl andb. cbv iota.
  assert (Hmem : forall T,
            clear_of (vertices p) T
              (fun r => In r (NatSet.elements (reflex_list p))) <->
            clear_of (vertices p) T (fun r => NatSet.In r (reflex_list p))).
  { intros T. apply clear_of_iff. intros r. apply elements_In. }
  split.
  - intros H. apply bind_Ok_inv in H. destruct H as (T & HT & Hscan).
    exists T. split; [exact HT|]. apply Hmem.
    now apply (is_ear_scan_spec _ _ _ _ Hscan).
  - intros (T & HT & Hcl). rewrite HT. cbn [bind].
    destruct (is_ear_scan_total (vertices p) T
                (NatSet.elements (reflex_list p))) as [b Hb].
    { intros r Hin. apply Hr. now apply elements_In. }
    rewrite Hb. f_equal. apply (is_ear_scan_spec _ _ _ _ Hb).
    now apply Hmem.
Qed.

Lemma ears_exact_fresh (vs : list geom.vec2) (p : polygon) :
  freshly_classified vs p -> ears_exact p.
Proof.
  intros Hf. destruct (freshly_classified_inv vs p Hf) as ((Hok & _) & _).
  destruct Hf as (_ & _ & _ & _ & He). intros u.
  rewrite He, (is_ear_true_iff p u Hok). reflexivity.
Qed.

(** The ear test reads the point array, the local triangle and the
    members of the reflex set only. *)
Lemma ear_test_transfer (p q : polygon) (u : nat) :
  vertices q = vertices p ->
  build_real_triangle_at q u = build_real_triangle_at p u ->
  (forall r, NatSet.In r (reflex_list q) <-> NatSet.In r (reflex_list p)) ->
  ((exists T, build_real_triangle_at q u = Ok T /\
      clear_of (vertices q) T (fun r => NatSet.In r (reflex_list q))) <->
   (exists T, build_real_triangle_at p u = Ok T /\
      clear_of (vertices p) T (fun r => NatSet.In r (reflex_list p)))).
Proof.
  intros Hv Ht Hr. rewrite Hv, Ht.
  split; intros (T & HT & Hcl); exists T; (split; [exact HT|]);
    eapply clear_of_iff; try exact Hcl; intros r; simpl;
    [symmetry|]; apply Hr.
Qed.

(** No corner of an ear's local triangle is in the reflex set. *)
Lemma ear_corners_not_reflex (p : polygon) (v : nat) (ABC : fake_triangle) :
  ears_exact p -> NatSet.In v (ear_list p) ->
  build_fake_triangle_at p v = Ok ABC ->
  ~ NatSet.In (tri_A ABC) (reflex_list p) /\
  ~ NatSet.In (tri_B ABC) (reflex_list p) /\
  ~ NatSet.In (tri_C ABC) (reflex_list p).
Proof.
  intros Hex Hv Hf. apply Hex in Hv. destruct Hv as (_ & T & HT & Hcl).
  unfold build_real_triangle_at in HT. rewrite Hf in HT. cbn [bind] in HT.
  apply make_triangle_real_inv in HT. destruct HT as (Ha & Hb & Hc).
  destruct (point_in_triangle_corners T) as (Ca & Cb & Cc).
  repeat split; intros Hin.
  - rewrite (Hcl _ _ Hin Ha) in Ca. discriminate.
  - rewrite (Hcl _ _ Hin Hb) in Cb. discriminate.
  - rewrite (Hcl _ _ Hin Hc) in Cc. discriminate.
Qed.

Lemma inner_split (l : list nat) (v : nat) :
  NoDup l -> In v (removelast l) ->
  exists l1 c l2, l = l1 ++ v :: c :: l2 /\ ~ In v l1.
Proof.
  intros Hnd Hinner.
  destruct (NoDup_split l v Hnd (In_removelast _ _ _ Hinner))
    as (l1 & l2 & -> & Hn1 & _).
  destruct l2 as [|c l2]; [|eauto].
  exfalso. apply Hn1. now apply removelast_snoc_In.
Qed.

(** One step of the driver keeps the ear set exact. *)
Lemma ears_exact_step (p : polygon) (v : nat) (ABC : fake_triangle)
  (p' : polygon) :
  polygon_inv p -> ears_exact p -> NatSet.In v (ear_list p) ->
  remove_vertex p v = Ok (ABC, p') ->
  ears_exact p'.
Proof.
  intros ((Hnd & Hb & Hrb) & Hcv & Hsub) Hex Hv H.
  apply remove_vertex_inv in H. destruct H as (Hf & l & p5 & Hl & H5 & H6).
  destruct (ear_corners_not_reflex p v ABC Hex Hv Hf) as (HrA & HrB & HrC).
  destruct (inner_split _ v Hnd (Hcv v (Hsub v Hv)))
    as (l1 & c & l2 & Hring & Hn1).
  unfold build_fake_triangle_at in Hf.
  rewrite Hring, build_triangle_at_element_split in Hf by exact Hn1.
  rewrite Hring, vector_erase_find_app in Hl by exact Hn1.
  injection Hl as <-. cbn [hd] in Hf.
  set (a := last l1 (last (c :: l2) v)) in *.
  injection Hf as <-. cbn [tri_A tri_B tri_C] in *.
  set (p4 := erased p (l1 ++ c :: l2) v) in *.
  assert (Hsub4 : forall w, NatSet.In w (ear_list p4) ->
                            NatSet.In w (convex_list p4)).
  { simpl. intros w Hw. apply NatSet.remove_spec in Hw.
    apply NatSet.remove_spec. split; [apply Hsub|]; tauto. }
  pose proof (update_vertex_ear_subset _ _ _ Hsub4 H5) as Hsub5.
  destruct (update_vertex_same_ring _ _ _ H5) as (Hv5 & Hl5).
  destruct (update_vertex_same_ring _ _ _ H6) as (Hv6 & Hl6).
  assert (Hr5 : forall r, NatSet.In r (reflex_list p5) <->
                          NatSet.In r (reflex_list p)).
  { intros r. split.
    - intros Hr. apply (update_vertex_reflex_shrinks _ _ _ H5) in Hr.
      simpl in Hr. apply NatSet.remove_spec in Hr. tauto.
    - intros Hr. assert (r <> a) by congruence.
      apply (update_vertex_frame _ _ _ H5 r H). simpl.
      apply NatSet.remove_spec. split; [exact Hr | congruence]. }
  assert (Hr6 : forall r, NatSet.In r (reflex_list p') <->
                          NatSet.In r (reflex_list p5)).
  { intros r. split.
    - apply (update_vertex_reflex_shrinks _ _ _ H6).
    - intros Hr. assert (r <> c) by (apply Hr5 in Hr; congruence).
      now apply (update_vertex_frame _ _ _ H6 r H). }
  intros u. destruct (Nat.eq_dec u c) as [->|Huc].
  { exact (update_vertex_ear _ _ _ Hsub5 H6). }
  destruct (update_vertex_frame _ _ _ H6 u Huc) as (G1 & _ & G3).
  rewrite G3, G1.
  rewrite (ear_test_transfer p5 p' u Hv6
             (build_real_triangle_at_ext p5 p' u Hv6 Hl6) Hr6).
  destruct (Nat.eq_dec u a) as [->|Hua].
  { exact (update_vertex_ear _ _ _ Hsub4 H5). }
  destruct (update_vertex_frame _ _ _ H5 u Hua) as (F1 & _ & F3).
  rewrite F3, F1. simpl ear_list. simpl convex_list.
  rewrite !NatSet.remove_spec, (Hex u).
  assert (Hsame : NatSet.In u (convex_list p) -> u <> v ->
            build_real_triangle_at p5 u = build_real_triangle_at p u).
  { intros Hcu Huv.
    rewrite (build_real_triangle_at_ext p4 p5 u Hv5 Hl5).
    unfold build_real_triangle_at, build_fake_triangle_at.
    simpl vertex_list. rewrite Hring.
    rewrite <- (local_triangle_unchanged l1 v c l2 u); auto.
    - now rewrite <- Hring.
    - apply Hcv, In_removelast in Hcu. rewrite Hring in Hcu.
      rewrite in_app_iff in *. simpl in *. intuition congruence. }
  assert (Hv5' : vertices p5 = vertices p) by (now rewrite Hv5).
  split.
  - intros ((Hcu & Htest) & Huv). split; [tauto|].
    now apply (ear_test_transfer p p5 u Hv5' (Hsame Hcu Huv) Hr5).
  - intros ((Hcu & Huv) & Htest). split; [|exact Huv].
    split; [exact Hcu|].
    now apply (ear_test_transfer p p5 u Hv5' (Hsame Hcu Huv) Hr5).
Qed.

Lemma driver_reaches_inv (p q : polygon) :
  driver_reaches p q -> polygon_inv p -> ears_exact p ->
  polygon_inv q /\ ears_exact q.
Proof.
  induction 1 as [p|p q r Hstep Hreach IH]; intros Hinv Hex; [auto|].
  destruct Hstep as [p v ear p' Hgt Hear Hg Hr].
  assert (Hv : NatSet.In v (ear_list p)).
  { destruct (get_next_ear_member p Hear) as (v' & Hg' & Hv'). congruence. }
  destruct (remove_vertex_total p v Hinv Hv)
    as (ABC & p'' & Hr' & Hinv' & _).
  rewrite Hr in Hr'. injection Hr' as <- <-.
  apply IH; [exact Hinv'|].
  exact (ears_exact_step p v ear p' Hinv Hex Hv Hr).
Qed.

(** ** The example polygons *)

Lemma triangle_start_built : polygon_new example_triangle = Ok triangle_start.
Proof. vm_compute. reflexivity. Qed.

Lemma triangle_clipped_reached :
  remove_vertex triangle_start 0 = Ok (mk_triangle 2 0 1, triangle_clipped).
Proof. vm_compute. reflexivity. Qed.

Lemma dart_start_built : polygon_new example_dart = Ok dart_start.
Proof. vm_compute. reflexivity. Qed.

Lemma square_start_built : polygon_new example_square = Ok square_start.
Proof. vm_compute. reflexivity. Qed.

(** [simple_polygon] accepts the three examples and rejects a bowtie and
    a contour that runs back over its own edge. *)
Lemma simple_polygon_examples :
  simple_polygon example_triangle = true /\
  simple_polygon example_square = true /\
  simple_polygon example_dart = true /\
  simple_polygon [pt 0 0; pt 2 2; pt 2 0; pt 0 2] = false /\
  simple_polygon [pt 2 0; pt 1 0; pt 0 1; pt (-1) 0] = false.
Proof. repeat split; vm_compute; reflexivity. Qed.

(** ** Cyclic neighbours *)

Lemma prev_index_mod (n i : nat) :
  i < n -> prev_index n i = (i + n - 1) mod n.
Proof.
  intros Hi. unfold prev_index. destruct (Nat.ltb_spec 0 i) as [Hpos|Hz].
  - replace (i + n - 1) with (i - 1 + 1 * n) by lia.
    rewrite Nat.Div0.mod_add. symmetry. apply Nat.mod_small. lia.
  - replace (i + n - 1) with (n - 1) by lia.
    symmetry. apply Nat.mod_small. lia.
Qed.

Lemma next_index_inner (n i : nat) :
  S i < n -> next_index n i = (i + 1) mod n.
Proof.
  intros Hi. unfold next_index.
  destruct (Nat.ltb_spec i (n - 1)); [|lia].
  symmetry. apply Nat.mod_small. lia.
Qed.

Lemma next_index_last (n i : nat) : S i = n -> next_index n i = i.
Proof.
  intros Hi. unfold next_index.
  destruct (Nat.ltb_spec i (n - 1)); lia.
Qed.

(** Away from the last position the index-based lookup returns the cyclic
    neighbours. *)
Lemma build_triangle_at_index_inner (T : Type) (v : list T) (i : nat) :
  S i < length v ->
  exists t, build_triangle_at_index v i = Ok t /\
    nth_error v ((i + length v - 1) mod length v) = Some (tri_A t) /\
    nth_error v i = Some (tri_B t) /\
    nth_error v ((i + 1) mod length v) = Some (tri_C t).
Proof.
  intros Hi.
  destruct (build_triangle_at_index_total T v i ltac:(lia)) as [t Ht].
  exists t. split; [exact Ht|].
  apply build_triangle_at_index_inv in Ht. destruct Ht as (Hlt & Ha & Hb & Hc).
  rewrite <- prev_index_mod, <- next_index_inner by lia. auto.
Qed.

(** At the last position the third corner is the element itself. *)
Lemma build_triangle_at_index_last (T : Type) (v : list T) (i : nat) :
  S i = length v ->
  exists t, build_triangle_at_index v i = Ok t /\
    nth_error v i = Some (tri_B t) /\ nth_error v i = Some (tri_C t).
Proof.
  intros Hi.
  destruct (build_triangle_at_index_total T v i ltac:(lia)) as [t Ht].
  exists t. split; [exact Ht|].
  apply build_triangle_at_index_inv in Ht. destruct Ht as (Hlt & Ha & Hb & Hc).
  rewrite next_index_last in Hc by exact Hi. auto.
Qed.

Lemma update_vertex_known (q : polygon) (u : nat) (q' : polygon) :
  update_vertex q u = Ok q' ->
  NatSet.In u (convex_list q) \/ In u (vertex_list q).
Proof.
  intros H. apply update_vertex_inv in H.
  assert (Hc : exists c, is_convex q u = Ok c)
    by (destruct H as [[H _]|[H _]]; eauto).
  destruct Hc as [c Hc]. unfold is_convex in Hc.
  destruct (NatSet.mem u (convex_list q)) eqn:Em.
  - left. now apply NatSet.mem_spec.
  - right. apply bind_Ok_inv in Hc. destruct Hc as (T & HT & _).
    eapply build_real_triangle_at_In. exact HT.
Qed.

(** A call of [remove_vertex] that returns has updated the cyclic
    predecessor and the cyclic successor of [v]: the vertex was not at the
    last position of the ring. *)
Lemma remove_vertex_neighbours (p : polygon) (v : nat) (ABC : fake_triangle)
  (p' : polygon) :
  NoDup (vertex_list p) ->
  remove_vertex p v = Ok (ABC, p') ->
  exists i, nth_error (vertex_list p) i = Some v /\
    S i < length (vertex_list p) /\
    nth_error (vertex_list p)
      ((i + length (vertex_list p) - 1) mod length (vertex_list p))
      = Some (tri_A ABC) /\
    nth_error (vertex_list p) ((i + 1) mod length (vertex_list p))
      = Some (tri_C ABC).
Proof.
  intros Hnd H. apply remove_vertex_inv in H.
  destruct H as (Hf & l & p5 & Hl & H5 & H6).
  apply build_fake_triangle_at_inv in Hf. destruct Hf as (i & Hi & Ht & HB).
  pose proof (find_index_nth _ _ _ Hi) as Hnth.
  apply build_triangle_at_index_inv in Ht. destruct Ht as (Hlt & Ha & Hb & Hc).
  assert (Hin : In v (vertex_list p)) by (eapply nth_error_In; exact Hnth).
  destruct (NoDup_split _ _ Hnd Hin) as (l1 & l2 & Hring & Hn1 & Hn2).
  rewrite Hring, vector_erase_find_app in Hl by exact Hn1.
  injection Hl as <-.
  assert (Hout : ~ In v (l1 ++ l2)) by (rewrite in_app_iff; tauto).
  exists i. split; [exact Hnth|].
  destruct (Nat.lt_ge_cases (S i) (length (vertex_list p))) as [Hinner|Hlast].
  - split; [exact Hinner|].
    rewrite <- prev_index_mod, <- next_index_inner by lia. auto.
  - exfalso. rewrite next_index_last in Hc by lia.
    assert (HC : tri_C ABC = v) by congruence.
    rewrite HC in H6.
    destruct (update_vertex_known _ _ _ H6) as [Hcv|Hrg].
    + destruct (Nat.eq_dec v (tri_A ABC)) as [Heq|Hne].
      * rewrite <- Heq in H5.
        destruct (update_vertex_known _ _ _ H5) as [Hcv4|Hrg4].
        -- simpl in Hcv4. apply NatSet.remove_spec in Hcv4. tauto.
        -- simpl in Hrg4. contradiction.
      * destruct (update_vertex_frame _ _ _ H5 v Hne) as (F & _).
        apply F in Hcv. simpl in Hcv. apply NatSet.remove_spec in Hcv. tauto.
    + destruct (update_vertex_same_ring _ _ _ H5) as (_ & Hr5).
      rewrite Hr5 in Hrg. simpl in Hrg. contradiction.
Qed.

(** ** A reflex vertex blocks the driver *)

Lemma is_reflex_zero (t : real_triangle) :
  (geom.det t == 0)%Q -> geom.is_reflex t = false.
Proof.
  intros H. unfold geom.is_reflex. apply Qltb_ge. rewrite H. apply Qle_refl.
Qed.

(** A vertex that tests reflex is not the last one of the ring. *)
Lemma geometric_reflex_inner (p : polygon) (u : nat) (T : real_triangle) :
  build_real_triangle_at p u = Ok T ->
  geom.is_reflex T = true ->
  In u (removelast (vertex_list p)).
Proof.
  unfold build_real_triangle_at. intros H Hc.
  apply bind_Ok_inv in H. destruct H as (t & Ht & Hr).
  apply build_fake_triangle_at_inv in Ht. destruct Ht as (i & Hi & Ht & HB).
  apply build_triangle_at_index_inv in Ht.
  destruct Ht as (Hlt & _ & Hb & Hn).
  apply make_triangle_real_inv in Hr. destruct Hr as (_ & HrB & HrC).
  destruct (Nat.lt_ge_cases (S i) (length (vertex_list p))) as [Hin|Hlast].
  - rewrite HB in Hb. eapply nth_error_removelast; eassumption.
  - exfalso. rewrite next_index_last in Hn by lia.
    assert (tri_C t = tri_B t) as E by congruence.
    rewrite E in HrC. assert (tri_C T = tri_B T) as E' by congruence.
    rewrite is_reflex_zero in Hc; [discriminate|].
    unfold geom.det. rewrite E'. apply det3_repeat.
Qed.

(** While a member [r] of the reflex set sits at an inner position of the
    ring, no ear is [r] or a ring neighbour of [r]; the ring therefore never
    shrinks to two vertices and the loop ends by reporting a non-simple
    polygon. *)
Lemma reflex_blocks_loop (fuel : nat) :
  forall p acc r,
  polygon_inv p -> ears_exact p ->
  NatSet.In r (reflex_list p) -> In r (removelast (vertex_list p)) ->
  2 < size p -> size p <= fuel + 2 ->
  triangulate_loop fuel p acc = Some (Throw non_simple).
Proof.
  induction fuel as [|fuel IH]; intros p acc r Hinv Hex Hr Hin Hgt Hsz;
    [lia|].
  rewrite triangulate_loop_eq.
  destruct (Nat.ltb_spec 2 (size p)); [|lia].
  destruct (has_ear p) eqn:Hear; simpl; [|reflexivity].
  destruct (get_next_ear_member p Hear) as (v & -> & Hv).
  destruct (remove_vertex_total p v Hinv Hv)
    as (ABC & p' & Hrem & Hinv' & Hsz' & _).
  rewrite Hrem.
  pose proof (ears_exact_step p v ABC p' Hinv Hex Hv Hrem) as Hex'.
  pose proof Hrem as Hshape. apply remove_vertex_inv in Hshape.
  destruct Hshape as (Hf & l & p5 & Hl & H5 & H6).
  destruct (ear_corners_not_reflex p v ABC Hex Hv Hf) as (HrA & HrB & HrC).
  destruct Hinv as ((Hnd & _) & Hcv & Hsub).
  destruct (inner_split _ v Hnd (Hcv v (Hsub v Hv)))
    as (l1 & c & l2 & Hring & Hn1).
  unfold build_fake_triangle_at in Hf.
  rewrite Hring, build_triangle_at_element_split in Hf by exact Hn1.
  rewrite Hring, vector_erase_find_app in Hl by exact Hn1.
  injection Hl as <-. cbn [hd] in Hf.
  set (a := last l1 (last (c :: l2) v)) in *.
  injection Hf as <-. cbn [tri_A tri_B tri_C] in *.
  assert (Hrv : r <> v) by congruence.
  assert (Hra : r <> a) by congruence.
  assert (Hrc : r <> c) by congruence.
  destruct (update_vertex_same_ring _ _ _ H5) as (_ & Hl5).
  destruct (update_vertex_same_ring _ _ _ H6) as (_ & Hl6).
  assert (Hring' : vertex_list p' = l1 ++ c :: l2)
    by (now rewrite Hl6, Hl5).
  assert (Hin' : In r (removelast (vertex_list p'))).
  { rewrite Hring'. apply removelast_middle with (v := v); [|exact Hrv].
    now rewrite <- Hring. }
  assert (Hgt' : 2 < size p').
  { unfold size. rewrite Hring' in *. rewrite length_app. simpl length.
    rewrite removelast_app in Hin' by discriminate.
    apply in_app_or in Hin'. destruct Hin' as [H1|H2].
    - destruct l1 as [|x [|y l1]]; [contradiction| |simpl; lia].
      destruct H1 as [<-|[]]. exfalso. apply Hra. reflexivity.
    - destruct l2 as [|x [|y l2]]; [contradiction| |simpl; lia].
      destruct H2 as [<-|[]]. exfalso. apply Hrc. reflexivity. }
  apply (IH p' _ r); auto; [|lia].
  now apply (remove_vertex_frame p v _ p' Hrem r Hrv Hra Hrc).
Qed.

(** X22.  [triangulate] fails, with the non-simple [logic_error], on every
    input of at least three points on which the constructor classifies
    some vertex as reflex. *)
Lemma triangulate_fails_with_reflex (vs : list geom.vec2) (p0 : polygon)
  (r : nat) :
  3 <= length vs -> polygon_new vs = Ok p0 ->
  NatSet.In r (reflex_list p0) ->
  triangulate vs = Some (Throw non_simple).
Proof.
  intros Hlen Hnew Hr. unfold triangulate. rewrite Hnew.
  destruct (polygon_new_spec vs) as (q & Hq & Hf).
  rewrite Hnew in Hq. injection Hq as <-.
  destruct (freshly_classified_inv vs p0 Hf) as (Hinv & Hsz).
  pose proof (ears_exact_fresh vs p0 Hf) as Hex.
  apply (reflex_blocks_loop (length vs) p0 [] r); auto; try lia.
  destruct Hf as (_ & _ & _ & Hrx & _). apply Hrx in Hr.
  destruct Hr as (T & HT & Hrf).
  eapply geometric_reflex_inner; eassumption.
Qed.

(** The driver always terminates. *)
Lemma triangulate_terminates (vs : list geom.vec2) :
  exists r, triangulate vs = Some r.
Proof.
  destruct (triangulate_cases vs) as [H|(ts & H & _)]; eauto.
Qed.

(** ** Binary64 arithmetic *)

Lemma Prim2SF_zero : Prim2SF 0 = S754_zero false.
Proof. reflexivity. Qed.

(** A comparison of a [double] with zero reads off its sign. *)
Lemma float_ltb_zero (d : float) :
  (d <? 0)%float = match float_sign d with Some Lt => true | _ => false end /\
  (0 <? d)%float = match float_sign d with Some Gt => true | _ => false end.
Proof.
  rewrite !ltb_spec, Prim2SF_zero. unfold float_sign, SFltb.
  destruct (Prim2SF d) as [s|s| |s m e]; cbn [SFcompare];
    try destruct s; split; reflexivity.
Qed.



(** [x - x] is a zero, or NaN when [x] is an infinity or NaN. *)
Lemma SF64sub_diag (s : spec_float) : zero_or_nan (SF64sub s s).
Proof.
  destruct s as [s|s| |s m e];
    [destruct s; exact I | destruct s; exact I | exact I |].
  unfold SF64sub, SFsub. cbv zeta.
  rewrite Z.sub_diag. exact I.
Qed.

Lemma SF64mul_zero_l (a b : spec_float) :
  zero_or_nan a -> zero_or_nan (SF64mul a b).
Proof. destruct a, b; intros H; try exact I; try destruct H. Qed.

Lemma SF64mul_zero_r (a b : spec_float) :
  zero_or_nan b -> zero_or_nan (SF64mul a b).
Proof. destruct a, b; intros H; try exact I; try destruct H. Qed.

Lemma SF64sub_zero (a b : spec_float) :
  zero_or_nan a -> zero_or_nan b -> zero_or_nan (SF64sub a b).
Proof.
  destruct a as [[|]| | |], b as [[|]| | |]; intros Ha Hb;
    try exact I; try destruct Ha; try destruct Hb.
Qed.

Lemma zero_or_nan_sign (d : float) :
  zero_or_nan (Prim2SF d) <->
  (d <? 0)%float = false /\ (0 <? d)%float = false.
Proof.
  destruct (float_ltb_zero d) as [-> ->]. unfold float_sign.
  destruct (Prim2SF d) as [s|s| |s m e]; try destruct s; cbn [zero_or_nan];
    split; try (intros [H1 H2]; discriminate); try (intros []); auto.
Qed.

(** No [double] is both below and above zero. *)
Lemma float_sign_exclusive (d : float) :
  (d <? 0)%float && (0 <? d)%float = false.
Proof.
  destruct (float_ltb_zero d) as [-> ->].
  destruct (float_sign d) as [[ | | ]|]; reflexivity.
Qed.

(** The half-plane value of a point against an edge that starts or ends
    at the point itself. *)
Lemma sign_repeat_first (a b : geom64.vec2) :
  zero_or_nan (Prim2SF (geom64.sign a a b)).
Proof.
  unfold geom64.sign. rewrite sub_spec. apply SF64sub_diag.
Qed.

Lemma sign_repeat_last (a b : geom64.vec2) :
  zero_or_nan (Prim2SF (geom64.sign a b a)).
Proof.
  unfold geom64.sign. rewrite sub_spec, !mul_spec.
  apply SF64sub_zero.
  - apply SF64mul_zero_l. rewrite sub_spec. apply SF64sub_diag.
  - apply SF64mul_zero_r. rewrite sub_spec. apply SF64sub_diag.
Qed.

Lemma det3_repeat_double (a b : geom64.vec2) :
  zero_or_nan (Prim2SF (geom64.det3 a b b)).
Proof.
  unfold geom64.det3. cbn [geom64.x geom64.y].
  rewrite sub_spec, !mul_spec.
  apply SF64sub_zero.
  - apply SF64mul_zero_r. rewrite sub_spec. apply SF64sub_diag.
  - apply SF64mul_zero_l. rewrite sub_spec. apply SF64sub_diag.
Qed.

(** Rounding to nearest-even does not look at the sign. *)
Lemma binary_round_aux_opp (s : bool) (m e : Z) (l : location) :
  binary_round_aux prec emax (negb s) m e l
  = SFopp (binary_round_aux prec emax s m e l).
Proof.
  unfold binary_round_aux.
  destruct (shr_fexp prec emax m e l) as [mrs' e'].
  destruct (shr_fexp prec emax _ e' loc_Exact) as [mrs'' e''].
  destruct (shr_m mrs''); [reflexivity| |reflexivity].
  destruct (e'' <=? emax - prec)%Z; reflexivity.
Qed.

Lemma binary_round_opp (s : bool) (m : positive) (e : Z) :
  binary_round prec emax (negb s) m e = SFopp (binary_round prec emax s m e).
Proof.
  unfold binary_round.
  destruct (shl_align m e _) as [mz ez]. apply binary_round_aux_opp.
Qed.

Lemma binary_normalize_opp (m e : Z) :
  unsigned_zero (binary_normalize prec emax (- m) e false)
  = unsigned_zero (SFopp (binary_normalize prec emax m e false)).
Proof.
  destruct m as [|p|p]; cbn [Z.opp binary_normalize].
  - reflexivity.
  - now rewrite <- binary_round_opp.
  - now rewrite <- binary_round_opp.
Qed.

(** [b - a] is [-(a - b)], up to the sign of a zero. *)
Lemma SF64sub_swap (a b : spec_float) :
  unsigned_zero (SF64sub b a) = unsigned_zero (SFopp (SF64sub a b)).
Proof.
  destruct a as [sa|sa| |sa ma ea], b as [sb|sb| |sb mb eb];
    try (destruct sa, sb; reflexivity); try (destruct sa; reflexivity);
    try (destruct sb; reflexivity); try reflexivity.
  unfold SF64sub, SFsub. cbv zeta.
  rewrite <- binary_normalize_opp, (Z.min_comm eb ea).
  f_equal. f_equal. lia.
Qed.

Lemma SF64mul_opp_opp (a b : spec_float) :
  SF64mul (SFopp a) (SFopp b) = SF64mul a b.
Proof.
  destruct a as [sa|sa| |sa ma ea], b as [sb|sb| |sb mb eb];
    cbn [SFopp SF64mul SFmul]; rewrite ?xorb_negb_negb; reflexivity.
Qed.

Lemma SF64mul_unsigned (a a' b b' : spec_float) :
  unsigned_zero a = unsigned_zero a' ->
  unsigned_zero b = unsigned_zero b' ->
  unsigned_zero (SF64mul a b) = unsigned_zero (SF64mul a' b').
Proof.
  intros Ha Hb.
  destruct a as [sa|sa| |sa ma ea], a' as [sa'|sa'| |sa' ma' ea'];
    cbn [unsigned_zero] in Ha; try discriminate Ha;
    try (injection Ha as ?; subst);
    destruct b as [sb|sb| |sb mb eb], b' as [sb'|sb'| |sb' mb' eb'];
    cbn [unsigned_zero] in Hb; try discriminate Hb;
    try (injection Hb as ?; subst); reflexivity.
Qed.

Lemma SF64sub_unsigned (a a' b b' : spec_float) :
  unsigned_zero a = unsigned_zero a' ->
  unsigned_zero b = unsigned_zero b' ->
  unsigned_zero (SF64sub a b) = unsigned_zero (SF64sub a' b').
Proof.
  intros Ha Hb.
  destruct a as [sa|sa| |sa ma ea], a' as [sa'|sa'| |sa' ma' ea'];
    cbn [unsigned_zero] in Ha; try discriminate Ha;
    try (injection Ha as ?; subst);
    destruct b as [sb|sb| |sb mb eb], b' as [sb'|sb'| |sb' mb' eb'];
    cbn [unsigned_zero] in Hb; try discriminate Hb;
    try (injection Hb as ?; subst); try reflexivity.
  destruct sa, sa', sb, sb'; reflexivity.
Qed.

Lemma SFltb_zero_unsigned (a b : spec_float) :
  unsigned_zero a = unsigned_zero b ->
  SFltb a (S754_zero false) = SFltb b (S754_zero false) /\
  SFltb (S754_zero false) a = SFltb (S754_zero false) b.
Proof.
  intros H.
  destruct a as [sa|sa| |sa ma ea], b as [sb|sb| |sb mb eb];
    cbn [unsigned_zero] in H; try discriminate H;
    try (injection H as ?; subst); split; reflexivity.
Qed.

Lemma SFltb_zero_opp (a : spec_float) :
  SFltb (SFopp a) (S754_zero false) = SFltb (S754_zero false) a /\
  SFltb (S754_zero false) (SFopp a) = SFltb a (S754_zero false).
Proof.
  destruct a as [sa|sa| |sa ma ea]; try destruct sa; split; reflexivity.
Qed.

(** The determinant of the reversed corners is the negated determinant,
    up to the sign of a zero. *)
Lemma det3_reverse_double (A B C : geom64.vec2) :
  unsigned_zero (Prim2SF (geom64.det3 C B A))
  = unsigned_zero (SFopp (Prim2SF (geom64.det3 A B C))).
Proof.
  unfold geom64.det3. cbn [geom64.x geom64.y].
  rewrite !sub_spec, !mul_spec, !sub_spec.
  rewrite <- SF64sub_swap.
  apply SF64sub_unsigned.
  - rewrite <- (SF64mul_opp_opp (SF64sub _ _) (SF64sub _ _)).
    apply SF64mul_unsigned; symmetry; apply SF64sub_swap.
  - rewrite <- (SF64mul_opp_opp (SF64sub _ _) (SF64sub _ _)).
    apply SF64mul_unsigned; symmetry; apply SF64sub_swap.
Qed.

(** * The claims *)

(** ** C1: the ear set after [remove_vertex] *)

(** C1, counterexample.  On the right triangle the driver removes ear 0;
    afterwards vertex 1 is in the ear set although its local triangle
    [(2, 1, 2)] does not test convex.  And a vertex that is not handed to
    [update_vertex] is not looked at again: after vertex 2 of the dart is
    removed the reflex set is empty and vertex 0 is in the convex set and
    tests convex, yet vertex 0 is not in the ear set. *)
Lemma ear_set_exact_counterexample :
  (polygon_new example_triangle = Ok triangle_start /\
   get_next_ear triangle_start = Ok 0 /\
   remove_vertex triangle_start 0
     = Ok (mk_triangle 2 0 1, triangle_clipped) /\
   In 1 (vertex_list triangle_clipped) /\
   NatSet.In 1 (ear_list triangle_clipped) /\
   build_real_triangle_at triangle_clipped 1
     = Ok (mk_triangle (pt 0 1) (pt 1 0) (pt 0 1)) /\
   geom.is_convex (mk_triangle (pt 0 1) (pt 1 0) (pt 0 1)) = false) /\
  (polygon_new example_dart = Ok dart_start /\
   (r <- remove_vertex dart_start 2 ;;
    T <- build_real_triangle_at (snd r) 0 ;;
    Ok (vertex_list (snd r), NatSet.elements (reflex_list (snd r)),
        NatSet.mem 0 (convex_list (snd r)), geom.is_convex T,
        NatSet.mem 0 (ear_list (snd r))))
   = Ok ([0; 1; 3], [], true, true, false)).
Proof.
  split.
  - split; [exact triangle_start_built|].
    split; [vm_compute; reflexivity|].
    split; [exact triangle_clipped_reached|].
    split; [simpl; auto|].
    split; [apply NatSet.mem_spec; vm_compute; reflexivity|].
    split; vm_compute; reflexivity.
  - split; [exact dart_start_built | vm_compute; reflexivity].
Qed.

(** C1, as amended.  At every point of the driver's run, that is after
    the construction and after every [remove_vertex] of the ear the driver
    selected, the ear set contains exactly the vertices that are in the
    convex set and whose local triangle has no point of a reflex-set member
    inside or on it. *)
Theorem ear_set_exact_along_driver (vs : list geom.vec2) (p0 p : polygon) :
  polygon_new vs = Ok p0 -> driver_reaches p0 p -> ears_exact p.
Proof.
  intros Hnew Hreach. destruct (polygon_new_spec vs) as (q & Hq & Hf).
  rewrite Hnew in Hq. inv Hq.
  destruct (freshly_classified_inv vs q Hf) as (Hinv & _).
  exact (proj2 (driver_reaches_inv q p Hreach Hinv (ears_exact_fresh vs q Hf))).
Qed.

Lemma ear_set_exact_along_driver_witness :
  polygon_new example_triangle = Ok triangle_start /\
  driver_reaches triangle_start triangle_clipped /\
  ears_exact triangle_clipped.
Proof.
  assert (H1 : polygon_new example_triangle = Ok triangle_start)
    by (vm_compute; reflexivity).
  assert (H2 : driver_reaches triangle_start triangle_clipped).
  { apply driver_next with (q := triangle_clipped); [|apply driver_here].
    apply driver_step_intro with (v := 0) (ear := mk_triangle 2 0 1).
    - unfold size. simpl. lia.
    - vm_compute. reflexivity.
    - vm_compute. reflexivity.
    - vm_compute. reflexivity. }
  split; [exact H1|]. split; [exact H2|].
  exact (ear_set_exact_along_driver example_triangle triangle_start
           triangle_clipped H1 H2).
Defined.

(** ** C2: the index-based lookup *)

(** C2, at the last position of a ring.  The claim asks for the first
    element as the successor of the last position; the lookup returns the
    last element itself: on the ring [0; 1; 2] at position 2 it yields
    [(1, 2, 2)], while the cyclic successor is 0. *)
Theorem build_triangle_at_index_last_position :
  build_triangle_at_index [0; 1; 2] 2 = Ok (mk_triangle 1 2 2) /\
  nth_error [0; 1; 2] ((2 + 1) mod length [0; 1; 2]) = Some 0.
Proof. split; reflexivity. Qed.

(** ** C3: the number of triangles *)

(** Whenever the driver returns, it returns [n - 2] triangles. *)
Lemma triangulate_ok_length (vs : list geom.vec2) (ts : list fake_triangle) :
  triangulate vs = Some (Ok ts) -> length ts = length vs - 2.
Proof.
  intros H. destruct (triangulate_cases vs) as [Hf|(ts' & Hok & Hl & _)];
    congruence.
Qed.

(** C3, at a simple polygon with a reflex vertex.  The dart is simple,
    wound counter-clockwise and has four vertices; the claim asks for two
    triangles, the driver reports a non-simple polygon. *)
Theorem triangulate_dart_fails :
  simple_polygon example_dart = true /\
  counter_clockwise example_dart = true /\
  length example_dart = 4 /\
  triangulate example_dart = Some (Throw non_simple).
Proof. repeat split; vm_compute; reflexivity. Qed.

(** The ear set of the dart is empty from the start: vertex 2 is reflex,
    and each of the convex vertices 0 and 1 has the point of vertex 2
    inside or on its local triangle (for vertex 1 it is a corner of that
    triangle); vertex 3, the last of the ring, gets the local triangle
    [(2, 3, 3)] and is in no set. *)
Lemma dart_has_no_ear :
  polygon_new example_dart = Ok dart_start /\
  has_ear dart_start = false /\
  build_fake_triangle_at dart_start 1 = Ok (mk_triangle 0 1 2) /\
  is_ear dart_start 1 false = Ok false /\
  is_ear dart_start 0 false = Ok false /\
  build_fake_triangle_at dart_start 3 = Ok (mk_triangle 2 3 3).
Proof. repeat split; vm_compute; reflexivity. Qed.

(** ** C4: fewer than three points *)

(** C4, counterexample.  With two points the call returns the empty list;
    no exception is raised. *)
Lemma triangulate_two_points_counterexample :
  length [pt 0 0; pt 1 0] < 3 /\
  triangulate [pt 0 0; pt 1 0] = Some (Ok []) /\
  forall what,
    triangulate [pt 0 0; pt 1 0] <> Some (Throw (out_of_range what)).
Proof.
  split; [simpl; lia|]. split; [vm_compute; reflexivity|].
  intros what H. vm_compute in H. discriminate H.
Qed.

(** C4, as amended.  For every input with fewer than three points the call
    returns normally with the empty list of triangles. *)
Theorem triangulate_short_input (vs : list geom.vec2) :
  length vs < 3 -> triangulate vs = Some (Ok []).
Proof.
  intros Hlen. unfold triangulate.
  destruct (polygon_new_spec vs) as (p & Hp & Hf). rewrite Hp.
  destruct (freshly_classified_inv vs p Hf) as (_ & Hsz).
  rewrite triangulate_loop_eq.
  destruct (Nat.ltb_spec 2 (size p)); [lia | reflexivity].
Qed.

Lemma triangulate_short_input_witness :
  length [pt 0 0; pt 1 0] < 3 /\ triangulate [pt 0 0; pt 1 0] = Some (Ok []).
Proof.
  split; [simpl; lia|].
  apply (triangulate_short_input [pt 0 0; pt 1 0]). simpl. lia.
Defined.

(** ** C5: the non-simple failure *)

(** C5.  [triangulate] reports a non-simple polygon exactly when the
    driver loop, started on the constructed polygon, meets a polygon with
    more than two ring vertices and an empty ear set.  A failure of the
    loop is the same whatever triangles were collected before it: the
    caller receives the exception and no triangle list. *)
Theorem triangulate_non_simple_iff (vs : list geom.vec2) :
  (triangulate vs = Some (Throw non_simple) <->
   exists p0 q, polygon_new vs = Ok p0 /\ driver_reaches p0 q /\
                2 < size q /\ has_ear q = false) /\
  (forall fuel p acc acc' e,
     triangulate_loop fuel p acc = Some (Throw e) ->
     triangulate_loop fuel p acc' = Some (Throw e)) /\
  (forall e, triangulate vs = Some (Throw e) ->
     forall ts, triangulate vs <> Some (Ok ts)).
Proof.
  split; [|split].
  - unfold triangulate. destruct (polygon_new_spec vs) as (p & Hp & Hf).
    rewrite Hp. destruct (freshly_classified_inv vs p Hf) as (Hinv & Hsz).
    split.
    + intros H.
      destruct (triangulate_loop_throws (length vs) p [] non_simple Hinv
                  ltac:(lia) H) as (_ & q & Hq).
      exists p, q. tauto.
    + intros (p0 & q & Hp0 & Hreach & Hgt & Hno). inv Hp0.
      apply (triangulate_loop_reaches p0 q Hreach); auto. lia.
  - intros fuel p acc acc' e. apply triangulate_loop_throw_acc.
  - intros e H ts H'. congruence.
Qed.

Lemma triangulate_non_simple_iff_witness :
  triangulate example_dart = Some (Throw non_simple) /\
  exists p0 q, polygon_new example_dart = Ok p0 /\ driver_reaches p0 q /\
               2 < size q /\ has_ear q = false.
Proof.
  assert (H : triangulate example_dart = Some (Throw non_simple))
    by (vm_compute; reflexivity).
  split; [exact H|].
  exact (proj1 (proj1 (triangulate_non_simple_iff example_dart)) H).
Defined.

(** ** C6: the triangles of a successful run *)

(** C6.  Every triangle returned by [triangulate] names three pairwise
    distinct indices, each of them a valid index into the input. *)
Theorem triangulate_valid_triangles (vs : list geom.vec2)
  (ts : list fake_triangle) :
  triangulate vs = Some (Ok ts) ->
  Forall (valid_triangle (length vs)) ts.
Proof.
  intros H. destruct (triangulate_cases vs) as [Hf|(ts' & Hok & _ & Hv)].
  - congruence.
  - rewrite H in Hok. now inv Hok.
Qed.

Lemma triangulate_valid_triangles_witness :
  triangulate example_square
    = Some (Ok [mk_triangle 3 0 1; mk_triangle 3 1 2]) /\
  Forall (valid_triangle 4) [mk_triangle 3 0 1; mk_triangle 3 1 2].
Proof.
  assert (H : triangulate example_square
              = Some (Ok [mk_triangle 3 0 1; mk_triangle 3 1 2]))
    by (vm_compute; reflexivity).
  split; [exact H|].
  exact (triangulate_valid_triangles example_square _ H).
Defined.

(** ** C7: the vertices updated by [remove_vertex] *)

(** C7, at the last vertex of the ring.  The claim asks for the two former
    neighbours of the removed vertex to be re-evaluated; for vertex 3 of
    the square these are 2 and 0.  The captured triple is [(2, 3, 3)], so
    the second update is applied to the removed vertex itself and the call
    ends with the not-found exception. *)
Theorem remove_vertex_last_position :
  polygon_new example_square = Ok square_start /\
  vertex_list square_start = [0; 1; 2; 3] /\
  nth_error (vertex_list square_start) ((3 + 1) mod 4) = Some 0 /\
  build_fake_triangle_at square_start 3 = Ok (mk_triangle 2 3 3) /\
  remove_vertex square_start 3
    = Throw (logic_error
               "build_triangle_at_element: element could not be found.").
Proof.
  split; [exact square_start_built|].
  repeat split; vm_compute; reflexivity.
Qed.

(** ** C8: cached classification *)

(** C8, counterexample.  After the driver removed ear 0 of the right
    triangle, [is_convex] answers true for vertex 1 from the cache, while
    the local triangle of vertex 1 does not test convex. *)
Lemma is_convex_cached_counterexample :
  polygon_new example_triangle = Ok triangle_start /\
  remove_vertex triangle_start 0 = Ok (mk_triangle 2 0 1, triangle_clipped) /\
  In 1 (vertex_list triangle_clipped) /\
  build_real_triangle_at triangle_clipped 1
    = Ok (mk_triangle (pt 0 1) (pt 1 0) (pt 0 1)) /\
  geom.is_convex (mk_triangle (pt 0 1) (pt 1 0) (pt 0 1)) = false /\
  is_convex triangle_clipped 1 = Ok true.
Proof.
  split; [exact triangle_start_built|].
  split; [exact triangle_clipped_reached|].
  split; [simpl; auto|].
  repeat split; vm_compute; reflexivity.
Qed.

(** C8, as amended.  For a vertex whose local triangle [T] can be built,
    [is_convex] answers true exactly when the vertex is in the convex set
    or [T] tests convex, and [is_reflex] likewise with the reflex set; on a
    freshly constructed polygon both answers are those of the geometric
    tests. *)
Theorem is_convex_is_reflex_cached (p : polygon) (v : nat)
  (T : real_triangle) :
  build_real_triangle_at p v = Ok T ->
  is_convex p v = Ok (NatSet.mem v (convex_list p) || geom.is_convex T) /\
  is_reflex p v = Ok (NatSet.mem v (reflex_list p) || geom.is_reflex T) /\
  (forall vs, polygon_new vs = Ok p ->
     is_convex p v = Ok (geom.is_convex T) /\
     is_reflex p v = Ok (geom.is_reflex T)).
Proof.
  intros HT.
  assert (Hc : is_convex p v
               = Ok (NatSet.mem v (convex_list p) || geom.is_convex T)).
  { unfold is_convex. rewrite HT.
    destruct (NatSet.mem v (convex_list p)); reflexivity. }
  assert (Hr : is_reflex p v
               = Ok (NatSet.mem v (reflex_list p) || geom.is_reflex T)).
  { unfold is_reflex. rewrite HT.
    destruct (NatSet.mem v (reflex_list p)); reflexivity. }
  split; [exact Hc|]. split; [exact Hr|].
  intros vs Hnew. destruct (polygon_new_spec vs) as (q & Hq & Hf).
  rewrite Hnew in Hq. inv Hq. destruct Hf as (_ & _ & Hcv & Hrx & _).
  rewrite Hc, Hr. split; f_equal.
  - destruct (NatSet.mem v (convex_list q)) eqn:Em; [|reflexivity].
    apply NatSet.mem_spec, Hcv in Em. destruct Em as (T' & HT' & Hcx).
    simpl. congruence.
  - destruct (NatSet.mem v (reflex_list q)) eqn:Em; [|reflexivity].
    apply NatSet.mem_spec, Hrx in Em. destruct Em as (T' & HT' & Hcx).
    simpl. congruence.
Qed.

Lemma is_convex_is_reflex_cached_witness :
  build_real_triangle_at triangle_clipped 1
    = Ok (mk_triangle (pt 0 1) (pt 1 0) (pt 0 1)) /\
  is_convex triangle_clipped 1
    = Ok (NatSet.mem 1 (convex_list triangle_clipped)
          || geom.is_convex (mk_triangle (pt 0 1) (pt 1 0) (pt 0 1))).
Proof.
  assert (H : build_real_triangle_at triangle_clipped 1
              = Ok (mk_triangle (pt 0 1) (pt 1 0) (pt 0 1)))
    by (vm_compute; reflexivity).
  split; [exact H|].
  exact (proj1 (is_convex_is_reflex_cached triangle_clipped 1 _ H)).
Defined.

(** ** C9: point containment *)





(** ** C10: the next ear *)

(** C10.  When the ear set is not empty, [get_next_ear] returns its
    smallest member. *)
Theorem get_next_ear_smallest (p : polygon) :
  has_ear p = true ->
  exists e, get_next_ear p = Ok e /\ NatSet.In e (ear_list p) /\
            forall u, NatSet.In u (ear_list p) -> e <= u.
Proof.
  unfold has_ear, get_next_ear. rewrite negb_true_iff. intros Hne.
  rewrite Hne. destruct (min_elt_smallest _ Hne) as (e & -> & Hin & Hmin).
  eauto.
Qed.

Lemma get_next_ear_smallest_witness :
  has_ear triangle_start = true /\
  exists e, get_next_ear triangle_start = Ok e /\
            NatSet.In e (ear_list triangle_start) /\
            forall u, NatSet.In u (ear_list triangle_start) -> e <= u.
Proof.
  assert (H : has_ear triangle_start = true) by (vm_compute; reflexivity).
  split; [exact H|].
  exact (get_next_ear_smallest triangle_start H).
Defined.

(** * Further properties of the code *)

(** ** The free functions *)

Lemma find_index_None (v : list nat) (e : nat) :
  ~ In e v -> find_index v e = None.
Proof.
  induction v as [|h t IH]; simpl; intros H; [reflexivity|].
  destruct (Nat.eqb_spec h e) as [->|Hne]; [tauto|].
  rewrite IH by tauto. reflexivity.
Qed.

(** X1.  [build_triangle_at_index] throws [out_of_range] exactly for an
    index that is not a position of the vector (in particular for every
    index on the empty vector); for a position it returns a triple whose
    middle corner is the element there and whose other corners are
    elements of the vector: none of its three unchecked accesses leaves
    the vector. *)
Theorem build_triangle_at_index_bounds (T : Type) (v : list T) (i : nat) :
  (length v <= i ->
   build_triangle_at_index v i
   = Throw (out_of_range "build_triangle_at_index: index is out-of-range.")) /\
  (i < length v ->
   exists t, build_triangle_at_index v i = Ok t /\
     nth_error v i = Some (tri_B t) /\ In (tri_A t) v /\ In (tri_C t) v).
Proof.
  split.
  - intros Hle. unfold build_triangle_at_index.
    destruct (Nat.leb_spec (length v) i); [reflexivity | lia].
  - intros Hlt. destruct (build_triangle_at_index_total T v i Hlt) as [t Ht].
    exists t. split; [exact Ht|].
    apply build_triangle_at_index_inv in Ht.
    destruct Ht as (_ & Ha & Hb & Hc).
    repeat split; [exact Hb | |]; eapply nth_error_In; eassumption.
Qed.

Lemma build_triangle_at_index_bounds_witness :
  build_triangle_at_index [7; 8; 9] 3
  = Throw (out_of_range "build_triangle_at_index: index is out-of-range.") /\
  exists t, build_triangle_at_index [7; 8; 9] 0 = Ok t /\
    nth_error [7; 8; 9] 0 = Some (tri_B t) /\
    In (tri_A t) [7; 8; 9] /\ In (tri_C t) [7; 8; 9].
Proof.
  split.
  - apply (proj1 (build_triangle_at_index_bounds nat [7; 8; 9] 3)).
    simpl. lia.
  - apply (proj2 (build_triangle_at_index_bounds nat [7; 8; 9] 0)).
    simpl. lia.
Defined.

(** X2.  At every position but the last one [build_triangle_at_index]
    returns the cyclic neighbours: the element before (the last element
    for position 0), the element itself, and the element after. *)
Theorem build_triangle_at_index_cyclic (T : Type) (v : list T) (i : nat) :
  S i < length v ->
  exists t, build_triangle_at_index v i = Ok t /\
    nth_error v ((i + length v - 1) mod length v) = Some (tri_A t) /\
    nth_error v i = Some (tri_B t) /\
    nth_error v ((i + 1) mod length v) = Some (tri_C t).
Proof.
  intros Hi.
  destruct (build_triangle_at_index_total T v i ltac:(lia)) as [t Ht].
  exists t. split; [exact Ht|].
  apply build_triangle_at_index_inv in Ht. destruct Ht as (Hlt & Ha & Hb & Hc).
  rewrite <- prev_index_mod, <- next_index_inner by lia. auto.
Qed.

Lemma build_triangle_at_index_cyclic_witness :
  S 0 < length [7; 8; 9] /\
  exists t, build_triangle_at_index [7; 8; 9] 0 = Ok t /\
    nth_error [7; 8; 9] ((0 + length [7; 8; 9] - 1) mod length [7; 8; 9])
      = Some (tri_A t) /\
    nth_error [7; 8; 9] 0 = Some (tri_B t) /\
    nth_error [7; 8; 9] ((0 + 1) mod length [7; 8; 9]) = Some (tri_C t).
Proof.
  assert (H : S 0 < length [7; 8; 9]) by (simpl; lia).
  split; [exact H|].
  exact (build_triangle_at_index_cyclic nat [7; 8; 9] 0 H).
Defined.

(** X3.  [build_triangle_at_element] throws the not-found [logic_error]
    exactly when the element is absent from the vector; when it is present
    the returned triple has the element as its middle corner and elements
    of the vector as its other corners. *)
Theorem build_triangle_at_element_found (v : list nat) (e : nat) :
  (~ In e v ->
   build_triangle_at_element v e
   = Throw (logic_error
              "build_triangle_at_element: element could not be found.")) /\
  (In e v ->
   exists t, build_triangle_at_element v e = Ok t /\
     tri_B t = e /\ In (tri_A t) v /\ In (tri_C t) v).
Proof.
  split.
  - intros Hn. unfold build_triangle_at_element.
    now rewrite find_index_None.
  - intros Hin. unfold build_triangle_at_element.
    destruct (find_index_In v e Hin) as [i Hi]. rewrite Hi.
    destruct (build_triangle_at_index_total nat v i (find_index_lt v e i Hi))
      as [t Ht].
    exists t. split; [exact Ht|].
    apply build_triangle_at_index_inv in Ht.
    destruct Ht as (_ & Ha & Hb & Hc).
    apply find_index_nth in Hi.
    repeat split; [congruence | |]; eapply nth_error_In; eassumption.
Qed.

Lemma build_triangle_at_element_found_witness :
  build_triangle_at_element [4; 5; 6] 9
  = Throw (logic_error
             "build_triangle_at_element: element could not be found.") /\
  exists t, build_triangle_at_element [4; 5; 6] 5 = Ok t /\
    tri_B t = 5 /\ In (tri_A t) [4; 5; 6] /\ In (tri_C t) [4; 5; 6].
Proof.
  split.
  - apply (proj1 (build_triangle_at_element_found [4; 5; 6] 9)).
    simpl. intros [H|[H|[H|[]]]]; discriminate H.
  - apply (proj2 (build_triangle_at_element_found [4; 5; 6] 5)).
    simpl. auto.
Defined.

(** X4.  [make_triangle_real] returns exactly when the three indices are
    positions of the vector, and then yields the elements at these
    positions; otherwise it throws [out_of_range]. *)
Theorem make_triangle_real_range (T : Type) (v : list T) (t : triangle nat) :
  (tri_A t < length v /\ tri_B t < length v /\ tri_C t < length v ->
   exists r, make_triangle_real v t = Ok r /\
     nth_error v (tri_A t) = Some (tri_A r) /\
     nth_error v (tri_B t) = Some (tri_B r) /\
     nth_error v (tri_C t) = Some (tri_C r)) /\
  (~ (tri_A t < length v /\ tri_B t < length v /\ tri_C t < length v) ->
   exists what, make_triangle_real v t = Throw (out_of_range what)).
Proof.
  split.
  - intros (Ha & Hb & Hc).
    destruct (make_triangle_real_total T v t Ha Hb Hc) as [r Hr].
    exists r. split; [exact Hr|]. now apply make_triangle_real_inv.
  - intros Hn. unfold make_triangle_real, vector_at.
    destruct (nth_error v (tri_A t)) eqn:Ea; [|simpl; eauto].
    destruct (nth_error v (tri_B t)) eqn:Eb; [|simpl; eauto].
    destruct (nth_error v (tri_C t)) eqn:Ec; [|simpl; eauto].
    exfalso. apply Hn. repeat split; apply nth_error_Some; congruence.
Qed.

Lemma make_triangle_real_range_witness :
  (exists r, make_triangle_real [10; 20; 30] (mk_triangle 2 0 1) = Ok r /\
     nth_error [10; 20; 30] 2 = Some (tri_A r) /\
     nth_error [10; 20; 30] 0 = Some (tri_B r) /\
     nth_error [10; 20; 30] 1 = Some (tri_C r)) /\
  exists what,
    make_triangle_real [10; 20; 30] (mk_triangle 0 3 1)
    = Throw (out_of_range what).
Proof.
  split.
  - apply (proj1 (make_triangle_real_range nat [10; 20; 30]
                    (mk_triangle 2 0 1))).
    simpl. lia.
  - apply (proj2 (make_triangle_real_range nat [10; 20; 30]
                    (mk_triangle 0 3 1))).
    simpl. lia.
Defined.

(** ** The geometric predicates in binary64 *)

(** X5.  In [double], rotating the corners of the triangle does not
    change the answer of [point_in_triangle], whatever the inputs;
    reversing their order can change it: for the triangle
    [(0,0), (1,0), (0,1)] and the point [(1, 2^-60)], which lies outside
    it, the answer is true, and false with the corners reversed. *)
Theorem point_in_triangle_double_rotation :
  (forall (T : triangle geom64.vec2) (P : geom64.vec2),
     geom64.point_in_triangle (rotate T) P = geom64.point_in_triangle T P) /\
  (exact_triangle unit_triangle = Some unit_exact /\
   exact_point skew_point = Some skew_exact /\
   geom.point_in_triangle unit_exact skew_exact = false /\
   geom64.point_in_triangle unit_triangle skew_point = true /\
   geom64.point_in_triangle (reverse unit_triangle) skew_point = false).
Proof.
  split.
  - intros T P. unfold geom64.point_in_triangle, rotate.
    cbn [tri_A tri_B tri_C]. cbv zeta.
    repeat match goal with
           | |- context [PrimFloat.ltb ?a ?b] => destruct (PrimFloat.ltb a b)
           end; reflexivity.
  - repeat split; vm_compute; reflexivity.
Qed.

(** X6.  In [double], [is_convex] and [is_reflex] are never both true of
    a triangle; both are false exactly when the computed determinant is a
    zero or NaN; and reversing the order of the corners exchanges the two
    answers.  A computed determinant can be NaN for finite corners whose
    exact determinant is positive: the triangle [(0,0), (h,h), (2h,3h)],
    [h = 2^600], tests neither convex nor reflex. *)
Theorem convex_reflex_double :
  (forall T : triangle geom64.vec2,
     geom64.is_convex T && geom64.is_reflex T = false) /\
  (forall T : triangle geom64.vec2,
     geom64.is_convex T = false /\ geom64.is_reflex T = false <->
     zero_or_nan (Prim2SF (geom64.det T))) /\
  (forall T : triangle geom64.vec2,
     geom64.is_convex (reverse T) = geom64.is_reflex T /\
     geom64.is_reflex (reverse T) = geom64.is_convex T) /\
  (exact_triangle huge_triangle = Some huge_exact /\
   geom.is_convex huge_exact = true /\
   geom64.is_convex huge_triangle = false /\
   geom64.is_reflex huge_triangle = false).
Proof.
  split; [|split; [|split]].
  - intros T. unfold geom64.is_convex, geom64.is_reflex.
    rewrite andb_comm. apply float_sign_exclusive.
  - intros T. unfold geom64.is_convex, geom64.is_reflex.
    rewrite (zero_or_nan_sign (geom64.det T)). tauto.
  - intros T. unfold geom64.is_convex, geom64.is_reflex, geom64.det, reverse.
    cbn [tri_A tri_B tri_C]. rewrite !ltb_spec, Prim2SF_zero.
    pose proof (det3_reverse_double (tri_A T) (tri_B T) (tri_C T)) as Hr.
    destruct (SFltb_zero_unsigned _ _ Hr) as [E1 E2].
    destruct (SFltb_zero_opp
                (Prim2SF (geom64.det3 (tri_A T) (tri_B T) (tri_C T))))
      as [E3 E4].
    split; congruence.
  - repeat split; vm_compute; reflexivity.
Qed.

(** X7.  In [double], the triangle [(A, B, B)], which the last vertex of
    a ring gets, tests neither convex nor reflex, whatever [A] and [B]
    (infinities and NaN included).  The points it contains are not only
    those of the line through [A] and [B]: for [A = (0,0)] and
    [B = (e,0)], [e = 2^-600], the point [(0,e)] is classified as
    contained, where in exact arithmetic it is not. *)
Theorem last_vertex_triangle_double :
  (forall A B : geom64.vec2,
     geom64.is_convex (mk_triangle A B B) = false /\
     geom64.is_reflex (mk_triangle A B B) = false) /\
  (exact_triangle flat_triangle = Some flat_exact /\
   exact_point off_point = Some off_exact /\
   ~ (geom.sign off_exact (tri_A flat_exact) (tri_B flat_exact) == 0)%Q /\
   geom.point_in_triangle flat_exact off_exact = false /\
   geom64.point_in_triangle flat_triangle off_point = true).
Proof.
  split.
  - intros A B. unfold geom64.is_convex, geom64.is_reflex, geom64.det.
    cbn [tri_A tri_B tri_C].
    destruct (proj1 (zero_or_nan_sign (geom64.det3 A B B))
                (det3_repeat_double A B)) as [E1 E2].
    split; assumption.
  - split; [vm_compute; reflexivity|].
    split; [vm_compute; reflexivity|].
    split; [vm_compute; discriminate|].
    split; vm_compute; reflexivity.
Qed.

(** X23.  In [double], every corner of a triangle is classified as
    contained in the triangle, whatever the coordinates (infinities and
    NaN included): the two half-plane values of the edges at the corner
    are zeros or NaN, and the third cannot be both negative and
    positive. *)
Theorem point_in_triangle_double_corners (T : triangle geom64.vec2) :
  geom64.point_in_triangle T (tri_A T) = true /\
  geom64.point_in_triangle T (tri_B T) = true /\
  geom64.point_in_triangle T (tri_C T) = true.
Proof.
  unfold geom64.point_in_triangle. cbv zeta.
  split; [|split].
  - destruct (proj1 (zero_or_nan_sign _)
                (sign_repeat_first (tri_A T) (tri_B T))) as [-> ->].
    destruct (proj1 (zero_or_nan_sign _)
                (sign_repeat_last (tri_A T) (tri_C T))) as [-> ->].
    rewrite !orb_false_r. cbn [orb]. now rewrite float_sign_exclusive.
  - destruct (proj1 (zero_or_nan_sign _)
                (sign_repeat_last (tri_B T) (tri_A T))) as [-> ->].
    destruct (proj1 (zero_or_nan_sign _)
                (sign_repeat_first (tri_B T) (tri_C T))) as [-> ->].
    cbn [orb]. now rewrite float_sign_exclusive.
  - destruct (proj1 (zero_or_nan_sign _)
                (sign_repeat_last (tri_C T) (tri_B T))) as [-> ->].
    destruct (proj1 (zero_or_nan_sign _)
                (sign_repeat_first (tri_C T) (tri_A T))) as [-> ->].
    rewrite !orb_false_r. now rewrite float_sign_exclusive.
Qed.

(** ** The polygon: construction and removal *)

Lemma vector_erase_find_inv (l : list nat) (v : nat) (l' : list nat) :
  vector_erase_find l v = Ok l' ->
  exists l1 l2, l = l1 ++ v :: l2 /\ ~ In v l1 /\ l' = l1 ++ l2.
Proof.
  revert l'. induction l as [|h t IH]; simpl; intros l' H; [discriminate|].
  destruct (Nat.eqb_spec h v) as [->|Hne].
  - injection H as <-. exists [], t. auto.
  - apply bind_Ok_inv in H. destruct H as (t' & Ht & H). injection H as <-.
    destruct (IH t' Ht) as (l1 & l2 & -> & Hn & ->).
    exists (h :: l1), l2. repeat split; auto.
    simpl. intuition congruence.
Qed.

Lemma convex_not_reflex (T : real_triangle) :
  geom.is_convex T = true -> geom.is_reflex T = true -> False.
Proof.
  unfold geom.is_convex, geom.is_reflex. rewrite !Qltb_lt. intros H1 H2.
  apply (Qlt_irrefl 0%Q). eapply Qlt_trans; eassumption.
Qed.

Lemma freshly_classified_consistent (vs : list geom.vec2) (p : polygon) :
  freshly_classified vs p -> classification_consistent p.
Proof.
  intros Hf. destruct (freshly_classified_inv vs p Hf)
    as (((Hnd & _) & Hcv & Hsub) & _).
  destruct Hf as (_ & _ & Hc & Hr & _).
  split; [exact Hnd|]. split; [|split; [|split; [exact Hsub|]]].
  - intros u Hu. apply In_removelast. now apply Hcv.
  - intros u Hu. apply Hr in Hu. destruct Hu as (T & HT & _).
    eapply build_real_triangle_at_In. exact HT.
  - intros u Hcu Hru. apply Hc in Hcu. apply Hr in Hru.
    destruct Hcu as (T & HT & Hcx). destruct Hru as (T' & HT' & Hrx).
    rewrite HT in HT'. injection HT' as <-.
    exact (convex_not_reflex T Hcx Hrx).
Qed.

(** X8.  The constructor returns for every input, the empty one included.
    The ring it builds is [0, ..., n-1]; a vertex is in the convex
    (reflex) set exactly when its local triangle tests convex (reflex), and
    in the ear set exactly when it is in the convex set and the reflex scan
    of [is_ear] finds nothing; the sets are consistent with the ring (no
    vertex is in both the convex and the reflex set), and the last vertex
    [n-1] is in neither of these two sets. *)
Theorem polygon_new_classifies (vs : list geom.vec2) :
  exists p, polygon_new vs = Ok p /\ freshly_classified vs p /\
    classification_consistent p /\
    (forall u, NatSet.In u (convex_list p) \/ NatSet.In u (reflex_list p) ->
               S u < length vs).
Proof.
  destruct (polygon_new_spec vs) as (p & Hp & Hf).
  exists p. split; [exact Hp|]. split; [exact Hf|].
  split; [exact (freshly_classified_consistent vs p Hf)|].
  destruct Hf as (Hv & Hl & Hc & Hr & He).
  assert (Hinner : forall u, In u (removelast (vertex_list p)) ->
                             S u < length vs).
  { intros u Hu. rewrite Hl in Hu. destruct (length vs) as [|n];
      [contradiction|].
    rewrite seq_S, removelast_last in Hu. apply in_seq in Hu. lia. }
  intros u [Hu|Hu]; apply Hinner.
  - apply Hc in Hu. destruct Hu as (T & HT & Hcx).
    eapply geometric_convex_inner; eassumption.
  - apply Hr in Hu. destruct Hu as (T & HT & Hrx).
    eapply geometric_reflex_inner; eassumption.
Qed.

(** X9.  [remove_vertex] of a vertex that is not in the ring throws the
    not-found [logic_error]. *)
Theorem remove_vertex_absent (p : polygon) (v : nat) :
  ~ In v (vertex_list p) ->
  remove_vertex p v
  = Throw (logic_error
             "build_triangle_at_element: element could not be found.").
Proof.
  intros Hn. unfold remove_vertex, build_fake_triangle_at,
    build_triangle_at_element.
  now rewrite find_index_None.
Qed.

Lemma remove_vertex_absent_witness :
  ~ In 7 (vertex_list triangle_start) /\
  remove_vertex triangle_start 7
  = Throw (logic_error
             "build_triangle_at_element: element could not be found.").
Proof.
  assert (H : ~ In 7 (vertex_list triangle_start)).
  { simpl. intros [H|[H|[H|[]]]]; discriminate H. }
  split; [exact H|]. exact (remove_vertex_absent triangle_start 7 H).
Defined.

(** X10.  A [remove_vertex] that returns has taken the first occurrence
    of the vertex out of the ring and left the order of the other vertices
    and the point array as they were; the ring is one vertex shorter, the
    middle corner of the returned triple is the removed vertex and its
    other corners are vertices of the ring before the call. *)
Theorem remove_vertex_ring (p : polygon) (v : nat) (ABC : fake_triangle)
  (p' : polygon) :
  remove_vertex p v = Ok (ABC, p') ->
  vertices p' = vertices p /\ S (size p') = size p /\ tri_B ABC = v /\
  In (tri_A ABC) (vertex_list p) /\ In (tri_C ABC) (vertex_list p) /\
  exists l1 l2, vertex_list p = l1 ++ v :: l2 /\ ~ In v l1 /\
                vertex_list p' = l1 ++ l2.
Proof.
  intros H. apply remove_vertex_inv in H.
  destruct H as (Hf & l & p5 & Hl & H5 & H6).
  destruct (update_vertex_same_ring _ _ _ H5) as (Hv5 & Hl5).
  destruct (update_vertex_same_ring _ _ _ H6) as (Hv6 & Hl6).
  destruct (vector_erase_find_inv _ _ _ Hl) as (l1 & l2 & Hring & Hn & ->).
  destruct (build_fake_triangle_at_members _ _ _ Hf) as (HA & _ & HC).
  apply build_fake_triangle_at_inv in Hf. destruct Hf as (_ & _ & _ & HB).
  assert (Hring' : vertex_list p' = l1 ++ l2) by (now rewrite Hl6, Hl5).
  split; [now rewrite Hv6, Hv5|]. split.
  { unfold size. rewrite Hring', Hring, !length_app. simpl. lia. }
  split; [exact HB|]. split; [exact HA|]. split; [exact HC|].
  exists l1, l2. auto.
Qed.

Lemma remove_vertex_ring_witness :
  remove_vertex triangle_start 0 = Ok (mk_triangle 2 0 1, triangle_clipped) /\
  exists l1 l2, vertex_list triangle_start = l1 ++ 0 :: l2 /\ ~ In 0 l1 /\
                vertex_list triangle_clipped = l1 ++ l2.
Proof.
  assert (H : remove_vertex triangle_start 0
              = Ok (mk_triangle 2 0 1, triangle_clipped))
    by (vm_compute; reflexivity).
  split; [exact H|].
  exact (proj2 (proj2 (proj2 (proj2 (proj2
           (remove_vertex_ring triangle_start 0 _ triangle_clipped H)))))).
Defined.

Lemma update_vertex_convex_grows (q : polygon) (u : nat) (q' : polygon) :
  update_vertex q u = Ok q' ->
  forall w, NatSet.In w (convex_list q) -> NatSet.In w (convex_list q').
Proof.
  intros Hu w Hw. apply update_vertex_inv in Hu.
  destruct Hu as [[_ ->]|[_ (e & _ & ->)]]; [exact Hw|].
  simpl. apply NatSet.add_spec. now right.
Qed.

Lemma remove_vertex_reflex_shrinks (p : polygon) (v : nat)
  (ABC : fake_triangle) (p' : polygon) :
  remove_vertex p v = Ok (ABC, p') ->
  forall w, NatSet.In w (reflex_list p') ->
            NatSet.In w (reflex_list p) /\ w <> v.
Proof.
  intros H w Hw. apply remove_vertex_inv in H.
  destruct H as (_ & l & p5 & _ & H5 & H6).
  apply (update_vertex_reflex_shrinks _ _ _ H6) in Hw.
  apply (update_vertex_reflex_shrinks _ _ _ H5) in Hw.
  simpl in Hw. apply NatSet.remove_spec in Hw. exact Hw.
Qed.

Lemma remove_vertex_convex_kept (p : polygon) (v : nat)
  (ABC : fake_triangle) (p' : polygon) :
  remove_vertex p v = Ok (ABC, p') ->
  forall w, NatSet.In w (convex_list p) -> w <> v ->
            NatSet.In w (convex_list p').
Proof.
  intros H w Hw Hne. apply remove_vertex_inv in H.
  destruct H as (_ & l & p5 & _ & H5 & H6).
  apply (update_vertex_convex_grows _ _ _ H6),
    (update_vertex_convex_grows _ _ _ H5).
  simpl. apply NatSet.remove_spec. auto.
Qed.

(** X11.  A [remove_vertex] that returns changes the classification of
    the removed vertex and of the first and third corner of the returned
    triple only, never adds a vertex to the reflex set, and never takes a
    vertex other than the removed one out of the convex set. *)
Theorem remove_vertex_one_way (p : polygon) (v : nat) (ABC : fake_triangle)
  (p' : polygon) :
  remove_vertex p v = Ok (ABC, p') ->
  (forall w, w <> v -> w <> tri_A ABC -> w <> tri_C ABC ->
     (NatSet.In w (convex_list p') <-> NatSet.In w (convex_list p)) /\
     (NatSet.In w (reflex_list p') <-> NatSet.In w (reflex_list p)) /\
     (NatSet.In w (ear_list p') <-> NatSet.In w (ear_list p))) /\
  (forall w, NatSet.In w (reflex_list p') ->
             NatSet.In w (reflex_list p) /\ w <> v) /\
  (forall w, NatSet.In w (convex_list p) -> w <> v ->
             NatSet.In w (convex_list p')).
Proof.
  intros H. split; [exact (remove_vertex_frame p v ABC p' H)|].
  split.
  - exact (remove_vertex_reflex_shrinks p v ABC p' H).
  - exact (remove_vertex_convex_kept p v ABC p' H).
Qed.

Lemma remove_vertex_one_way_witness :
  remove_vertex triangle_start 0 = Ok (mk_triangle 2 0 1, triangle_clipped) /\
  forall w, NatSet.In w (convex_list triangle_start) -> w <> 0 ->
            NatSet.In w (convex_list triangle_clipped).
Proof.
  assert (H : remove_vertex triangle_start 0
              = Ok (mk_triangle 2 0 1, triangle_clipped))
    by (vm_compute; reflexivity).
  split; [exact H|].
  exact (proj2 (proj2
           (remove_vertex_one_way triangle_start 0 _ triangle_clipped H))).
Defined.

(** X12.  On a duplicate-free ring [remove_vertex] never returns for the
    vertex at the last position of the ring. *)
Theorem remove_vertex_last_fails (p : polygon) (v : nat) :
  NoDup (vertex_list p) ->
  nth_error (vertex_list p) (length (vertex_list p) - 1) = Some v ->
  forall r, remove_vertex p v <> Ok r.
Proof.
  intros Hnd Hlast [ABC p'] H.
  destruct (remove_vertex_neighbours p v ABC p' Hnd H)
    as (i & Hi & Hlt & _).
  assert (E : i = length (vertex_list p) - 1).
  { apply (proj1 (NoDup_nth_error (vertex_list p)) Hnd); [lia|]. congruence. }
  lia.
Qed.

Lemma remove_vertex_last_fails_witness :
  NoDup (vertex_list square_start) /\
  nth_error (vertex_list square_start) (length (vertex_list square_start) - 1)
    = Some 3 /\
  forall r, remove_vertex square_start 3 <> Ok r.
Proof.
  assert (H1 : NoDup (vertex_list square_start)).
  { apply (NoDup_count_occ' Nat.eq_dec). intros x Hx. simpl in Hx.
    destruct Hx as [<-|[<-|[<-|[<-|[]]]]]; reflexivity. }
  assert (H2 : nth_error (vertex_list square_start)
                 (length (vertex_list square_start) - 1) = Some 3)
    by reflexivity.
  split; [exact H1|]. split; [exact H2|].
  exact (remove_vertex_last_fails square_start 3 H1 H2).
Defined.

Lemma polygon_new_inv (vs : list geom.vec2) (p : polygon) :
  polygon_new vs = Ok p -> polygon_inv p /\ size p = length vs.
Proof.
  intros H. destruct (polygon_new_spec vs) as (q & Hq & Hf).
  rewrite H in Hq. injection Hq as <-. now apply freshly_classified_inv.
Qed.

Lemma update_vertex_consistent (q : polygon) (u : nat) (q' : polygon) :
  classification_consistent q -> update_vertex q u = Ok q' ->
  classification_consistent q'.
Proof.
  intros (Hnd & Hc & Hr & He & Hd) H.
  pose proof (update_vertex_known q u q' H) as Hu.
  pose proof (update_vertex_ear_subset q u q' He H) as He'.
  assert (Hin : In u (vertex_list q)) by (destruct Hu; auto).
  apply update_vertex_inv in H.
  destruct H as [[_ ->]|[_ (e & _ & ->)]]; [repeat split; auto|].
  split; [exact Hnd|]. split; [|split; [|split; [exact He'|]]]; simpl.
  - intros w Hw. apply NatSet.add_spec in Hw. destruct Hw as [->|Hw]; auto.
  - intros w Hw. apply NatSet.remove_spec in Hw. apply Hr. tauto.
  - intros w Hw Hw'. apply NatSet.add_spec in Hw.
    apply NatSet.remove_spec in Hw'. destruct Hw as [->|Hw]; [tauto|].
    apply (Hd w); tauto.
Qed.

(** X13.  The classification sets stay consistent with the ring under
    every [remove_vertex] that returns, whichever vertex is removed: the
    ring has no duplicate, the convex and the reflex set hold ring vertices
    only and have no common member, and the ear set is within the convex
    set. *)
Theorem remove_vertex_consistent (p : polygon) (v : nat) (ABC : fake_triangle)
  (p' : polygon) :
  classification_consistent p -> remove_vertex p v = Ok (ABC, p') ->
  classification_consistent p'.
Proof.
  intros (Hnd & Hc & Hr & He & Hd) H. apply remove_vertex_inv in H.
  destruct H as (_ & l & p5 & Hl & H5 & H6).
  destruct (vector_erase_find_inv _ _ _ Hl) as (l1 & l2 & Hring & Hn & ->).
  assert (Hmem : forall w, In w (vertex_list p) -> w <> v -> In w (l1 ++ l2)).
  { intros w Hw Hne. rewrite Hring in Hw. rewrite in_app_iff in *.
    simpl in Hw. intuition congruence. }
  apply (update_vertex_consistent p5 (tri_C ABC) p'); [|exact H6].
  apply (update_vertex_consistent (erased p (l1 ++ l2) v) (tri_A ABC) p5);
    [|exact H5].
  split; [|split; [|split; [|split]]]; simpl.
  - rewrite Hring in Hnd. now apply NoDup_remove_1 in Hnd.
  - intros w Hw. apply NatSet.remove_spec in Hw. apply Hmem; [apply Hc|]; tauto.
  - intros w Hw. apply NatSet.remove_spec in Hw. apply Hmem; [apply Hr|]; tauto.
  - intros w Hw. apply NatSet.remove_spec in Hw.
    apply NatSet.remove_spec. split; [apply He|]; tauto.
  - intros w Hw Hw'. apply NatSet.remove_spec in Hw.
    apply NatSet.remove_spec in Hw'. apply (Hd w); tauto.
Qed.

Lemma remove_vertex_consistent_witness :
  classification_consistent triangle_start /\
  remove_vertex triangle_start 0 = Ok (mk_triangle 2 0 1, triangle_clipped) /\
  classification_consistent triangle_clipped.
Proof.
  assert (H1 : classification_consistent triangle_start).
  { destruct (polygon_new_spec example_triangle) as (q & Hq & Hf).
    rewrite triangle_start_built in Hq. injection Hq as <-.
    exact (freshly_classified_consistent example_triangle triangle_start Hf). }
  assert (H2 : remove_vertex triangle_start 0
               = Ok (mk_triangle 2 0 1, triangle_clipped))
    by (vm_compute; reflexivity).
  split; [exact H1|]. split; [exact H2|].
  exact (remove_vertex_consistent triangle_start 0 _ triangle_clipped H1 H2).
Defined.

(** X14.  [is_ear] without pre-test answers false for every vertex one of
    whose triple corners (the vertex itself or one of the two corners that
    [build_fake_triangle_at] gives it) is in the reflex set: a vertex next
    to a member of the reflex set never passes the ear test. *)
Theorem is_ear_false_next_to_reflex (p : polygon) (v : nat)
  (ABC : fake_triangle) :
  ring_ok p -> build_fake_triangle_at p v = Ok ABC ->
  NatSet.In (tri_A ABC) (reflex_list p) \/
  NatSet.In (tri_B ABC) (reflex_list p) \/
  NatSet.In (tri_C ABC) (reflex_list p) ->
  is_ear p v false = Ok false.
Proof.
  intros Hok Hf Hcorner.
  pose proof Hok as (_ & Hb & _).
  assert (Hv : In v (vertex_list p)).
  { destruct (build_fake_triangle_at_members p v ABC Hf) as (_ & HB & _).
    apply build_fake_triangle_at_inv in Hf.
    destruct Hf as (_ & _ & _ & E). now rewrite E in HB. }
  destruct (is_ear_total p v Hok Hv) as [[|] He]; [|exact He].
  exfalso. apply (is_ear_true_iff p v Hok) in He.
  destruct He as (T & HT & Hcl).
  unfold build_real_triangle_at in HT. rewrite Hf in HT. cbn [bind] in HT.
  apply make_triangle_real_inv in HT. destruct HT as (Ha & Hbb & Hc).
  destruct (point_in_triangle_corners T) as (Ca & Cb & Cc).
  destruct Hcorner as [Hin|[Hin|Hin]].
  - rewrite (Hcl _ _ Hin Ha) in Ca. discriminate.
  - rewrite (Hcl _ _ Hin Hbb) in Cb. discriminate.
  - rewrite (Hcl _ _ Hin Hc) in Cc. discriminate.
Qed.

Lemma is_ear_false_next_to_reflex_witness :
  ring_ok dart_start /\
  build_fake_triangle_at dart_start 1 = Ok (mk_triangle 0 1 2) /\
  NatSet.In 2 (reflex_list dart_start) /\
  is_ear dart_start 1 false = Ok false.
Proof.
  assert (H1 : ring_ok dart_start)
    by exact (proj1 (proj1 (polygon_new_inv _ _ dart_start_built))).
  assert (H2 : build_fake_triangle_at dart_start 1 = Ok (mk_triangle 0 1 2))
    by (vm_compute; reflexivity).
  assert (H3 : NatSet.In 2 (reflex_list dart_start))
    by (apply NatSet.mem_spec; vm_compute; reflexivity).
  split; [exact H1|]. split; [exact H2|]. split; [exact H3|].
  exact (is_ear_false_next_to_reflex dart_start 1 (mk_triangle 0 1 2) H1 H2
           (or_intror (or_intror H3))).
Defined.

(** X15.  [get_next_ear] throws its [logic_error] exactly when [has_ear]
    is false; otherwise it returns a member of the ear set, and it never
    dereferences the end of an empty set. *)
Theorem get_next_ear_empty (p : polygon) :
  (has_ear p = false <->
   get_next_ear p = Throw (logic_error "get_next_ear: Ear list is empty.")) /\
  (has_ear p = true <->
   exists v, get_next_ear p = Ok v /\ NatSet.In v (ear_list p)) /\
  get_next_ear p <> Undefined.
Proof.
  destruct (has_ear p) eqn:Hear.
  - destruct (get_next_ear_member p Hear) as (v & Hg & Hv).
    rewrite Hg. split; [split; discriminate|].
    split; [|discriminate]. split; eauto.
  - assert (Hg : get_next_ear p
                 = Throw (logic_error "get_next_ear: Ear list is empty.")).
    { unfold has_ear in Hear. apply negb_false_iff in Hear.
      unfold get_next_ear. now rewrite Hear. }
    rewrite Hg. split; [tauto|]. split; [|discriminate].
    split; [discriminate|]. intros (v & Hv & _). discriminate Hv.
Qed.

(** ** The driver *)

(** X16.  [triangulate] terminates on every input and has only two kinds
    of outcome: it throws the non-simple [logic_error], or it returns
    [n - 2] triangles ([0] for fewer than two points).  It never ends in
    [out_of_range], in a not-found or empty-ear-list error, or in an
    out-of-bounds access. *)
Theorem triangulate_outcomes (vs : list geom.vec2) :
  (exists r, triangulate vs = Some r) /\
  triangulate vs <> Some Undefined /\
  (forall e, triangulate vs = Some (Throw e) -> e = non_simple) /\
  (forall ts, triangulate vs = Some (Ok ts) -> length ts = length vs - 2).
Proof.
  destruct (triangulate_cases vs) as [H|(ts & H & Hl & _)]; rewrite H.
  - split; [eauto|]. split; [discriminate|].
    split; [intros e E; now injection E as <- | discriminate].
  - split; [eauto|]. split; [discriminate|].
    split; [discriminate | intros ts' E; injection E as <-; exact Hl].
Qed.

(** The shape of the ring around an ear that the driver removes. *)
Lemma remove_ear_shape (p : polygon) (v : nat) (ABC : fake_triangle)
  (p' : polygon) :
  polygon_inv p -> NatSet.In v (ear_list p) ->
  remove_vertex p v = Ok (ABC, p') ->
  exists l1 c l2,
    vertex_list p = l1 ++ v :: c :: l2 /\ ~ In v l1 /\
    vertex_list p' = l1 ++ c :: l2 /\
    ABC = mk_triangle (last l1 (last (c :: l2) v)) v c.
Proof.
  intros ((Hnd & _) & Hcv & Hsub) Hv H. apply remove_vertex_inv in H.
  destruct H as (Hf & l & p5 & Hl & H5 & H6).
  destruct (inner_split _ v Hnd (Hcv v (Hsub v Hv)))
    as (l1 & c & l2 & Hring & Hn1).
  unfold build_fake_triangle_at in Hf.
  rewrite Hring, build_triangle_at_element_split in Hf by exact Hn1.
  rewrite Hring, vector_erase_find_app in Hl by exact Hn1.
  injection Hl as <-. cbn [hd] in Hf. injection Hf as <-.
  destruct (update_vertex_same_ring _ _ _ H5) as (_ & Hl5).
  destruct (update_vertex_same_ring _ _ _ H6) as (_ & Hl6).
  exists l1, c, l2. repeat split; auto. now rewrite Hl6, Hl5.
Qed.

Lemma triangulate_loop_apexes (fuel : nat) :
  forall p acc ts, polygon_inv p ->
  triangulate_loop fuel p acc = Some (Ok ts) ->
  exists ts', ts = acc ++ ts' /\ NoDup (map tri_B ts') /\
    Forall (fun t => In (tri_B t) (removelast (vertex_list p))) ts'.
Proof.
  induction fuel as [|fuel IH]; intros p acc ts Hinv;
    rewrite triangulate_loop_eq;
    destruct (Nat.ltb_spec 2 (size p)) as [Hgt|Hle]; try discriminate;
    try (intros E; injection E as <-; exists []; rewrite app_nil_r;
         repeat split; constructor).
  destruct (has_ear p) eqn:Hear; simpl; [|discriminate].
  destruct (get_next_ear_member p Hear) as (v & -> & Hv).
  destruct (remove_vertex_total p v Hinv Hv)
    as (ABC & p' & Hrem & Hinv' & _).
  rewrite Hrem. intros H.
  destruct (IH p' _ ts Hinv' H) as (ts' & -> & Hnd' & Hall).
  destruct (remove_ear_shape p v ABC p' Hinv Hv Hrem)
    as (l1 & c & l2 & Hring & Hn1 & Hring' & ->).
  destruct Hinv as ((Hnd & _) & _).
  assert (Hsub : forall x, In x (removelast (vertex_list p')) ->
            In x (removelast (vertex_list p)) /\ x <> v).
  { intros x Hx. rewrite Hring', removelast_app in Hx by discriminate.
    rewrite Hring, removelast_app by discriminate.
    change (removelast (v :: c :: l2)) with (v :: removelast (c :: l2)).
    apply in_app_or in Hx. split.
    - apply in_or_app. destruct Hx as [Hx|Hx]; [now left|].
      right. right. exact Hx.
    - intros ->. rewrite Hring in Hnd. apply NoDup_remove_2 in Hnd.
      apply Hnd. apply in_or_app.
      destruct Hx as [Hx|Hx]; [now left|].
      right. now apply In_removelast in Hx. }
  exists (mk_triangle (last l1 (last (c :: l2) v)) v c :: ts').
  rewrite <- app_assoc. split; [reflexivity|]. split.
  - simpl. constructor; [|exact Hnd']. intros Hin.
    apply in_map_iff in Hin. destruct Hin as (t & Ht & Hin).
    rewrite Forall_forall in Hall. apply Hall, Hsub in Hin. simpl in Ht.
    tauto.
  - constructor.
    + cbn [tri_B]. rewrite Hring, removelast_app by discriminate.
      apply in_or_app. right.
      change (removelast (v :: c :: l2)) with (v :: removelast (c :: l2)).
      now left.
    + rewrite Forall_forall in *. intros t Ht. now apply Hsub, Hall.
Qed.

(** X17.  In the list that [triangulate] returns every vertex is the
    middle corner of at most one triangle, and the last input vertex
    [n - 1] is the middle corner of none: it is never clipped. *)
Theorem triangulate_apexes (vs : list geom.vec2) (ts : list fake_triangle) :
  triangulate vs = Some (Ok ts) ->
  NoDup (map tri_B ts) /\ Forall (fun t => S (tri_B t) < length vs) ts.
Proof.
  unfold triangulate. destruct (polygon_new_spec vs) as (p & Hp & Hf).
  rewrite Hp. destruct (freshly_classified_inv vs p Hf) as (Hinv & _).
  intros H.
  destruct (triangulate_loop_apexes (length vs) p [] ts Hinv H)
    as (ts' & -> & Hnd & Hall).
  simpl. split; [exact Hnd|].
  destruct Hf as (_ & Hl & _). rewrite Hl in Hall.
  rewrite Forall_forall in *. intros t Ht. specialize (Hall t Ht).
  destruct (length vs) as [|n]; [contradiction|].
  rewrite seq_S, removelast_last in Hall. apply in_seq in Hall. lia.
Qed.

Lemma triangulate_apexes_witness :
  triangulate example_square
    = Some (Ok [mk_triangle 3 0 1; mk_triangle 3 1 2]) /\
  NoDup (map tri_B [mk_triangle 3 0 1; mk_triangle 3 1 2]) /\
  Forall (fun t : fake_triangle => S (tri_B t) < length example_square)
    [mk_triangle 3 0 1; mk_triangle 3 1 2].
Proof.
  assert (H : triangulate example_square
              = Some (Ok [mk_triangle 3 0 1; mk_triangle 3 1 2]))
    by (vm_compute; reflexivity).
  split; [exact H|]. exact (triangulate_apexes example_square _ H).
Defined.

Lemma last_seq (a m d : nat) : last (seq a (S m)) d = a + m.
Proof.
  rewrite seq_S. apply last_last.
Qed.

Lemma fan_cons (n k : nat) :
  k + 2 < n ->
  fan n k = mk_triangle (n - 1) k (k + 1) :: fan n (k + 1).
Proof.
  intros H. unfold fan.
  replace (n - 2 - k) with (S (n - 2 - (k + 1))) by lia.
  simpl. replace (S k) with (k + 1) by lia. reflexivity.
Qed.

Lemma triangulate_loop_fan (n fuel : nat) :
  forall k p acc,
  polygon_inv p -> ears_exact p ->
  (forall r, ~ NatSet.In r (reflex_list p)) ->
  vertex_list p = seq k (n - k) ->
  (forall u, k <= u -> S u < n -> NatSet.In u (convex_list p)) ->
  k + 2 <= n -> n - k <= fuel + 2 ->
  triangulate_loop fuel p acc = Some (Ok (acc ++ fan n k)).
Proof.
  induction fuel as [|fuel IH]; intros k p acc Hinv Hex Hnr Hring Hcx Hk Hf;
    rewrite triangulate_loop_eq; unfold size; rewrite Hring, length_seq;
    destruct (Nat.ltb_spec 2 (n - k)) as [Hgt|Hle]; try lia;
    try (unfold fan; replace (n - 2 - k) with 0 by lia; simpl;
         now rewrite app_nil_r).
  assert (Hkc : NatSet.In k (convex_list p)) by (apply Hcx; lia).
  pose proof Hinv as ((Hnd & Hb & _) & Hcv & Hsub).
  assert (Hkr : In k (vertex_list p)) by (apply In_removelast; auto).
  assert (Hke : NatSet.In k (ear_list p)).
  { apply Hex. split; [exact Hkc|].
    destruct (build_real_triangle_at_total p k Hb Hkr) as [T HT].
    exists T. split; [exact HT|]. intros r q Hr. now apply Hnr in Hr. }
  assert (Hne : NatSet.is_empty (ear_list p) = false).
  { destruct (NatSet.is_empty (ear_list p)) eqn:E; [|reflexivity].
    apply NatSet.is_empty_spec in E. now apply E in Hke. }
  unfold has_ear, get_next_ear. rewrite Hne. simpl.
  destruct (min_elt_smallest _ Hne) as (v & -> & Hv & Hmin).
  assert (v = k) as ->.
  { apply Nat.le_antisymm; [now apply Hmin|].
    apply Hsub, Hcv, In_removelast in Hv. rewrite Hring in Hv.
    apply in_seq in Hv. lia. }
  destruct (remove_vertex_total p k Hinv Hke)
    as (ABC & p' & Hrem & Hinv' & _ & _).
  rewrite Hrem.
  destruct (remove_ear_shape p k ABC p' Hinv Hke Hrem)
    as (l1 & c & l2 & Hshape & Hn1 & Hring' & ->).
  assert (Hl1 : l1 = []).
  { destruct l1 as [|x l1]; [reflexivity|]. exfalso.
    rewrite Hring in Hshape.
    replace (n - k) with (S (n - k - 1)) in Hshape by lia.
    simpl in Hshape. injection Hshape as Hx _. apply Hn1. now left. }
  subst l1. simpl app in *. rewrite Hring in Hshape.
  replace (n - k) with (S (S (n - k - 2))) in Hshape by lia.
  simpl in Hshape. injection Hshape as Hc Hl2.
  assert (Hcl2 : c :: l2 = seq (k + 1) (n - (k + 1))).
  { replace (n - (k + 1)) with (S (n - k - 2)) by lia.
    replace (k + 1) with (S k) by lia. simpl. now rewrite <- Hc, <- Hl2. }
  assert (Hlast : last (c :: l2) k = n - 1).
  { rewrite Hcl2. replace (n - (k + 1)) with (S (n - k - 2)) by lia.
    rewrite last_seq. lia. }
  change (match l2 with [] => c | _ :: _ => last l2 k end)
    with (last (c :: l2) k).
  rewrite Hlast.
  rewrite (IH (k + 1) p' _ Hinv'); try lia.
  - rewrite <- app_assoc, (fan_cons n k) by lia. simpl.
    replace c with (k + 1) by lia. reflexivity.
  - exact (ears_exact_step p k _ p' Hinv Hex Hke Hrem).
  - intros r Hr. apply (remove_vertex_reflex_shrinks _ _ _ _ Hrem) in Hr.
    apply (Hnr r). tauto.
  - now rewrite Hring'.
  - intros u Hu1 Hu2.
    apply (remove_vertex_convex_kept _ _ _ _ Hrem); [apply Hcx|]; lia.
Qed.

(** X18.  When the constructor classifies every vertex but the last one
    as convex (as it does for a strictly convex polygon wound
    counter-clockwise), [triangulate] returns the fan around the last
    vertex: [(n-1, 0, 1), (n-1, 1, 2), ..., (n-1, n-3, n-2)], in this
    order. *)
Theorem triangulate_convex_fan (vs : list geom.vec2) (p0 : polygon) :
  3 <= length vs -> polygon_new vs = Ok p0 ->
  (forall u, S u < length vs -> NatSet.In u (convex_list p0)) ->
  triangulate vs = Some (Ok (fan (length vs) 0)).
Proof.
  intros Hlen Hnew Hcx. unfold triangulate. rewrite Hnew.
  destruct (polygon_new_spec vs) as (q & Hq & Hf).
  rewrite Hnew in Hq. injection Hq as <-.
  destruct (freshly_classified_inv vs p0 Hf) as (Hinv & Hsz).
  pose proof (ears_exact_fresh vs p0 Hf) as Hex.
  pose proof Hf as (_ & Hl & Hc & Hr & _).
  assert (Hnr : forall r, ~ NatSet.In r (reflex_list p0)).
  { intros r Hrr. pose proof Hrr as Hrr'. apply Hr in Hrr.
    destruct Hrr as (T & HT & Hrx).
    pose proof (geometric_reflex_inner p0 r T HT Hrx) as Hin.
    rewrite Hl in Hin. destruct (length vs) as [|n]; [contradiction|].
    rewrite seq_S, removelast_last in Hin. apply in_seq in Hin.
    assert (Hrc : NatSet.In r (convex_list p0)) by (apply Hcx; lia).
    apply Hc in Hrc. destruct Hrc as (T' & HT' & Hcv).
    rewrite HT in HT'. injection HT' as <-.
    exact (convex_not_reflex T Hcv Hrx). }
  assert (Hring : vertex_list p0 = seq 0 (length vs - 0))
    by (now rewrite Nat.sub_0_r).
  assert (Hall : forall u, 0 <= u -> S u < length vs ->
                           NatSet.In u (convex_list p0))
    by (intros u _ Hu; now apply Hcx).
  exact (triangulate_loop_fan (length vs) (length vs) 0 p0 [] Hinv Hex Hnr
           Hring Hall ltac:(lia) ltac:(lia)).
Qed.

Lemma triangulate_convex_fan_witness :
  3 <= length example_square /\
  polygon_new example_square = Ok square_start /\
  triangulate example_square = Some (Ok (fan (length example_square) 0)).
Proof.
  assert (H1 : 3 <= length example_square) by (simpl; lia).
  assert (H2 : polygon_new example_square = Ok square_start)
    by (vm_compute; reflexivity).
  assert (H3 : forall u, S u < length example_square ->
                         NatSet.In u (convex_list square_start)).
  { intros u Hu. apply NatSet.mem_spec.
    destruct u as [|[|[|u]]]; [reflexivity..|simpl in Hu; lia]. }
  split; [exact H1|]. split; [exact H2|].
  exact (triangulate_convex_fan example_square square_start H1 H2 H3).
Defined.

(** ** Further witnesses *)

Lemma remove_vertex_ear_set_witness :
  NatSet.Subset (ear_list triangle_start) (convex_list triangle_start) /\
  remove_vertex triangle_start 0 = Ok (mk_triangle 2 0 1, triangle_clipped) /\
  ear_set_after triangle_start 0 (mk_triangle 2 0 1) triangle_clipped.
Proof.
  assert (H1 : NatSet.Subset (ear_list triangle_start)
                 (convex_list triangle_start)).
  { apply NatSet.subset_spec. vm_compute. reflexivity. }
  assert (H2 : remove_vertex triangle_start 0
               = Ok (mk_triangle 2 0 1, triangle_clipped)).
  { vm_compute. reflexivity. }
  split; [exact H1|]. split; [exact H2|].
  exact (remove_vertex_ear_set triangle_start 0 (mk_triangle 2 0 1)
           triangle_clipped H1 H2).
Defined.

Lemma triangulate_fails_with_reflex_witness :
  3 <= length example_dart /\
  polygon_new example_dart = Ok dart_start /\
  NatSet.In 2 (reflex_list dart_start) /\
  triangulate example_dart = Some (Throw non_simple).
Proof.
  assert (H1 : 3 <= length example_dart) by (simpl; lia).
  assert (H2 : polygon_new example_dart = Ok dart_start)
    by (vm_compute; reflexivity).
  assert (H3 : NatSet.In 2 (reflex_list dart_start))
    by (apply NatSet.mem_spec; vm_compute; reflexivity).
  split; [exact H1|]. split; [exact H2|]. split; [exact H3|].
  exact (triangulate_fails_with_reflex example_dart dart_start 2 H1 H2 H3).
Defined.

(** ** [update_vertex] and the pre-test of [is_ear] *)

(** X19.  An [update_vertex] that returns leaves the ring and the point
    array as they were and changes the classification of no other vertex;
    the updated vertex stays in the convex set if it was there, and is not
    in the reflex set when it is in the convex set afterwards. *)
Theorem update_vertex_effect (q : polygon) (u : nat) (q' : polygon) :
  update_vertex q u = Ok q' ->
  vertices q' = vertices q /\ vertex_list q' = vertex_list q /\
  (forall w, w <> u ->
     (NatSet.In w (convex_list q') <-> NatSet.In w (convex_list q)) /\
     (NatSet.In w (reflex_list q') <-> NatSet.In w (reflex_list q)) /\
     (NatSet.In w (ear_list q') <-> NatSet.In w (ear_list q))) /\
  (NatSet.In u (convex_list q) -> NatSet.In u (convex_list q')) /\
  (NatSet.In u (convex_list q') -> ~ NatSet.In u (reflex_list q')).
Proof.
  intros H.
  destruct (update_vertex_same_ring q u q' H) as (Hv & Hl).
  split; [exact Hv|]. split; [exact Hl|].
  split; [exact (update_vertex_frame q u q' H)|].
  split; [exact (update_vertex_convex_grows q u q' H u)|].
  apply update_vertex_inv in H.
  destruct H as [[Hc ->]|[_ (e & _ & ->)]].
  - intros Hin. now apply is_convex_false_not_cached in Hc.
  - simpl. intros _ Hin. apply NatSet.remove_spec in Hin. tauto.
Qed.

Lemma update_vertex_effect_witness :
  update_vertex triangle_start 1 = Ok triangle_updated /\
  vertex_list triangle_updated = vertex_list triangle_start /\
  (NatSet.In 1 (convex_list triangle_updated) ->
   ~ NatSet.In 1 (reflex_list triangle_updated)).
Proof.
  assert (H : update_vertex triangle_start 1 = Ok triangle_updated)
    by (vm_compute; reflexivity).
  split; [exact H|].
  destruct (update_vertex_effect triangle_start 1 triangle_updated H)
    as (_ & Hl & _ & _ & Hd).
  split; [exact Hl | exact Hd].
Defined.

(** X20.  Along the driver's run the pre-test of [is_ear] is sound: for
    every vertex, answering from the ear set gives the same outcome as the
    full test without pre-test. *)
Theorem is_ear_pre_test_sound (vs : list geom.vec2) (p0 p : polygon)
  (v : nat) :
  polygon_new vs = Ok p0 -> driver_reaches p0 p ->
  is_ear p v true = is_ear p v false.
Proof.
  intros Hnew Hreach. destruct (polygon_new_spec vs) as (q & Hq & Hf).
  rewrite Hnew in Hq. injection Hq as <-.
  destruct (freshly_classified_inv vs p0 Hf) as (Hinv & _).
  destruct (driver_reaches_inv p0 p Hreach Hinv (ears_exact_fresh vs p0 Hf))
    as ((Hok & _) & Hex).
  destruct (NatSet.mem v (ear_list p)) eqn:Em.
  - assert (Ht : is_ear p v true = Ok true).
    { unfold is_ear. now rewrite Em. }
    rewrite Ht. symmetry. apply (is_ear_true_iff p v Hok).
    apply NatSet.mem_spec, Hex in Em. tauto.
  - unfold is_ear. now rewrite Em.
Qed.

Lemma is_ear_pre_test_sound_witness :
  polygon_new example_triangle = Ok triangle_start /\
  driver_reaches triangle_start triangle_clipped /\
  is_ear triangle_clipped 1 true = is_ear triangle_clipped 1 false.
Proof.
  assert (H1 : polygon_new example_triangle = Ok triangle_start)
    by (vm_compute; reflexivity).
  assert (H2 : driver_reaches triangle_start triangle_clipped).
  { apply driver_next with (q := triangle_clipped); [|apply driver_here].
    apply driver_step_intro with (v := 0) (ear := mk_triangle 2 0 1).
    - unfold size. simpl. lia.
    - vm_compute. reflexivity.
    - vm_compute. reflexivity.
    - vm_compute. reflexivity. }
  split; [exact H1|]. split; [exact H2|].
  exact (is_ear_pre_test_sound example_triangle triangle_start
           triangle_clipped 1 H1 H2).
Defined.
